(** * Encoding tools for Access/VBA modules: a shallow embedding

    The repository ships three scripts under
    [access-module-encoding/scripts]:

    - [check_access_module_encoding.py]      (module [Check]),
    - [normalize_access_module_encoding.py]  (module [Normalize]),
    - [fix_access_mojibake.py]               (module [Fix]).

    Python [bytes] are lists of [Byte.byte]; a Python [str] is the list of
    its code points (type [N]); a raised exception is the [Raise] case of
    [result]; the file system touched by [Path.read_bytes],
    [Path.write_bytes] and [Path.exists] is a finite map from path to
    contents, threaded through the drivers.

    The codecs are those of CPython ([utf-8], [utf-8-sig], [ascii],
    [cp1252], [utf-16]), all in strict mode as the scripts call them.
    The drivers are modelled from the resolved list of paths on: argument
    parsing, the directory scan of [gather_files] and the printing of the
    report are left out; the rows of the report and the exit code are
    kept. *)

From Stdlib Require Import NArith ZArith List Lia Bool.
From Stdlib.Strings Require Import Byte Ascii String.
From stdpp Require Import gmap strings list.
Import ListNotations.

Open Scope N_scope.

(** ** Exceptions and results *)

Inductive exn : Type :=
| UnicodeDecodeError
| UnicodeEncodeError
| FileNotFoundError
| ValueError.

Inductive result (A : Type) : Type :=
| Ok (a : A)
| Raise (e : exn).
Arguments Ok {A} a.
Arguments Raise {A} e.

Definition rbind {A B} (r : result A) (k : A -> result B) : result B :=
  match r with
  | Ok a => k a
  | Raise e => Raise e
  end.

Definition rmap {A B} (f : A -> B) (r : result A) : result B :=
  rbind r (fun a => Ok (f a)).

Notation "'let*' x ':=' r 'in' k" := (rbind r (fun x => k))
  (at level 10, x name, r at level 100, k at level 200).

(** ** Bytes and text *)

Abbreviation bytes := (list byte).
Abbreviation char := N.
Abbreviation text := (list N).

#[global] Instance byte_eq_dec : EqDecision byte := Byte.byte_eq_dec.

(** The byte whose value is [n]; only used below 256. *)
Definition byte_of (n : N) : byte :=
  match Byte.of_N n with
  | Some b => b
  | None => x00
  end.

Definition in_range (lo hi n : N) : bool := (lo <=? n) && (n <=? hi).

(** [bytes.startswith] *)
Fixpoint startswith (data pre : bytes) : bool :=
  match pre, data with
  | [], _ => true
  | p :: pre', d :: data' => if decide (p = d) then startswith data' pre' else false
  | _ :: _, [] => false
  end.

(** ** Codecs *)

(** *** UTF-8 (strict) *)

Definition is_cont (b : byte) : bool := in_range 0x80 0xBF (Byte.to_N b).
Definition cont_bits (b : byte) : N := Byte.to_N b - 0x80.
Definition is_surrogate (c : char) : bool := in_range 0xD800 0xDFFF c.

(** [bytes.decode("utf-8")]: shortest-form sequences only, no surrogate,
    nothing above U+10FFFF. *)
Fixpoint utf8_decode (data : bytes) : result text :=
  match data with
  | [] => Ok []
  | b0 :: r0 =>
    let n0 := Byte.to_N b0 in
    if n0 <? 0x80 then rmap (cons n0) (utf8_decode r0)
    else if in_range 0xC2 0xDF n0 then
      match r0 with
      | b1 :: r1 =>
        if is_cont b1
        then rmap (cons ((n0 - 0xC0) * 64 + cont_bits b1)) (utf8_decode r1)
        else Raise UnicodeDecodeError
      | _ => Raise UnicodeDecodeError
      end
    else if in_range 0xE0 0xEF n0 then
      match r0 with
      | b1 :: b2 :: r2 =>
        let c := (n0 - 0xE0) * 4096 + cont_bits b1 * 64 + cont_bits b2 in
        if is_cont b1 && is_cont b2 && (0x800 <=? c) && negb (is_surrogate c)
        then rmap (cons c) (utf8_decode r2)
        else Raise UnicodeDecodeError
      | _ => Raise UnicodeDecodeError
      end
    else if in_range 0xF0 0xF4 n0 then
      match r0 with
      | b1 :: b2 :: b3 :: r3 =>
        let c := (n0 - 0xF0) * 262144 + cont_bits b1 * 4096
                 + cont_bits b2 * 64 + cont_bits b3 in
        if is_cont b1 && is_cont b2 && is_cont b3 && in_range 0x10000 0x10FFFF c
        then rmap (cons c) (utf8_decode r3)
        else Raise UnicodeDecodeError
      | _ => Raise UnicodeDecodeError
      end
    else Raise UnicodeDecodeError
  end.

Definition utf8_encode_char (c : char) : result bytes :=
  if c <? 0x80 then Ok [byte_of c]
  else if c <? 0x800 then
    Ok [byte_of (0xC0 + c / 64); byte_of (0x80 + c mod 64)]
  else if c <? 0x10000 then
    if is_surrogate c then Raise UnicodeEncodeError
    else Ok [byte_of (0xE0 + c / 4096); byte_of (0x80 + (c / 64) mod 64);
             byte_of (0x80 + c mod 64)]
  else if c <=? 0x10FFFF then
    Ok [byte_of (0xF0 + c / 262144); byte_of (0x80 + (c / 4096) mod 64);
        byte_of (0x80 + (c / 64) mod 64); byte_of (0x80 + c mod 64)]
  else Raise UnicodeEncodeError.

(** [str.encode("utf-8")] *)
Fixpoint utf8_encode (t : text) : result bytes :=
  match t with
  | [] => Ok []
  | c :: t' =>
    let* bs := utf8_encode_char c in
    let* rest := utf8_encode t' in
    Ok (bs ++ rest)
  end.

Definition BOM_UTF8 : bytes := [xef; xbb; xbf].

(** [bytes.decode("utf-8-sig")]: one leading marker, if any, is dropped. *)
Definition utf8_sig_decode (data : bytes) : result text :=
  if startswith data BOM_UTF8 then utf8_decode (drop 3 data) else utf8_decode data.

(** *** ASCII *)

Fixpoint ascii_decode (data : bytes) : result text :=
  match data with
  | [] => Ok []
  | b :: r =>
    if Byte.to_N b <? 0x80 then rmap (cons (Byte.to_N b)) (ascii_decode r)
    else Raise UnicodeDecodeError
  end.

Fixpoint ascii_encode (t : text) : result bytes :=
  match t with
  | [] => Ok []
  | c :: r =>
    if c <? 0x80 then rmap (cons (byte_of c)) (ascii_encode r)
    else Raise UnicodeEncodeError
  end.

(** *** CP1252, as Python's [encodings.cp1252] has it: the bytes 81, 8D,
    8F, 90 and 9D are undefined in its decoding table. *)

Definition cp1252_decode_byte (b : byte) : option char :=
  match b with
  | x80 => Some 0x20AC | x81 => None        | x82 => Some 0x201A
  | x83 => Some 0x0192 | x84 => Some 0x201E | x85 => Some 0x2026
  | x86 => Some 0x2020 | x87 => Some 0x2021 | x88 => Some 0x02C6
  | x89 => Some 0x2030 | x8a => Some 0x0160 | x8b => Some 0x2039
  | x8c => Some 0x0152 | x8d => None        | x8e => Some 0x017D
  | x8f => None        | x90 => None        | x91 => Some 0x2018
  | x92 => Some 0x2019 | x93 => Some 0x201C | x94 => Some 0x201D
  | x95 => Some 0x2022 | x96 => Some 0x2013 | x97 => Some 0x2014
  | x98 => Some 0x02DC | x99 => Some 0x2122 | x9a => Some 0x0161
  | x9b => Some 0x203A | x9c => Some 0x0153 | x9d => None
  | x9e => Some 0x017E | x9f => Some 0x0178
  | _ => Some (Byte.to_N b)
  end.

Definition cp1252_encode_char (c : char) : option byte :=
  if (c <? 0x80) || in_range 0xA0 0xFF c then Some (byte_of c)
  else match c with
  | 0x20AC => Some x80 | 0x201A => Some x82 | 0x0192 => Some x83
  | 0x201E => Some x84 | 0x2026 => Some x85 | 0x2020 => Some x86
  | 0x2021 => Some x87 | 0x02C6 => Some x88 | 0x2030 => Some x89
  | 0x0160 => Some x8a | 0x2039 => Some x8b | 0x0152 => Some x8c
  | 0x017D => Some x8e | 0x2018 => Some x91 | 0x2019 => Some x92
  | 0x201C => Some x93 | 0x201D => Some x94 | 0x2022 => Some x95
  | 0x2013 => Some x96 | 0x2014 => Some x97 | 0x02DC => Some x98
  | 0x2122 => Some x99 | 0x0161 => Some x9a | 0x203A => Some x9b
  | 0x0153 => Some x9c | 0x017E => Some x9e | 0x0178 => Some x9f
  | _ => None
  end.

(** [bytes.decode("cp1252")] *)
Fixpoint cp1252_decode (data : bytes) : result text :=
  match data with
  | [] => Ok []
  | b :: r =>
    match cp1252_decode_byte b with
    | Some c => rmap (cons c) (cp1252_decode r)
    | None => Raise UnicodeDecodeError
    end
  end.

(** [str.encode("cp1252")] *)
Fixpoint cp1252_encode (t : text) : result bytes :=
  match t with
  | [] => Ok []
  | c :: r =>
    match cp1252_encode_char c with
    | Some b => rmap (cons b) (cp1252_encode r)
    | None => Raise UnicodeEncodeError
    end
  end.

(** *** UTF-16 with a byte-order mark *)

Fixpoint utf16_units (little : bool) (data : bytes) : result (list N) :=
  match data with
  | [] => Ok []
  | [_] => Raise UnicodeDecodeError
  | a :: b :: r =>
    let u := if little then Byte.to_N a + 256 * Byte.to_N b
             else 256 * Byte.to_N a + Byte.to_N b in
    rmap (cons u) (utf16_units little r)
  end.

Fixpoint utf16_combine (units : list N) : result text :=
  match units with
  | [] => Ok []
  | u :: r =>
    if in_range 0xD800 0xDBFF u then
      match r with
      | v :: r' =>
        if in_range 0xDC00 0xDFFF v
        then rmap (cons (0x10000 + (u - 0xD800) * 1024 + (v - 0xDC00)))
                  (utf16_combine r')
        else Raise UnicodeDecodeError
      | [] => Raise UnicodeDecodeError
      end
    else if in_range 0xDC00 0xDFFF u then Raise UnicodeDecodeError
    else rmap (cons u) (utf16_combine r)
  end.

(** [bytes.decode("utf-16")]: the marker selects the byte order and is
    consumed; without a marker the codec reads little-endian. *)
Definition utf16_decode (data : bytes) : result text :=
  if startswith data [xff; xfe] then
    let* us := utf16_units true (drop 2 data) in utf16_combine us
  else if startswith data [xfe; xff] then
    let* us := utf16_units false (drop 2 data) in utf16_combine us
  else
    let* us := utf16_units true data in utf16_combine us.

(** ** String operations of [str] used by the scripts *)

(** [t.startswith(sub)] on text. *)
Fixpoint prefixb (sub t : text) : bool :=
  match sub, t with
  | [], _ => true
  | s :: sub', c :: t' => (s =? c) && prefixb sub' t'
  | _ :: _, [] => false
  end.

(** Left-to-right scan shared by [count] and [replace]: [skip] is the
    number of characters of the current match still to be stepped over,
    so that matches never overlap. *)
Fixpoint count_scan (sub : text) (skip : nat) (t : text) : nat :=
  match t with
  | [] => 0%nat
  | _ :: r =>
    match skip with
    | S k => count_scan sub k r
    | O => if prefixb sub t then S (count_scan sub (length sub - 1) r)
           else count_scan sub 0 r
    end
  end.

(** [t.count(sub)]: non-overlapping occurrences; the empty string occurs
    [len(t) + 1] times. *)
Definition count (t sub : text) : nat :=
  match sub with
  | [] => S (length t)
  | _ => count_scan sub 0 t
  end.

Fixpoint replace_scan (old new : text) (skip : nat) (t : text) : text :=
  match t with
  | [] => []
  | c :: r =>
    match skip with
    | S k => replace_scan old new k r
    | O => if prefixb old t then new ++ replace_scan old new (length old - 1) r
           else c :: replace_scan old new 0 r
    end
  end.

(** [t.replace(old, new)]: every non-overlapping occurrence, leftmost
    first; an empty [old] matches before every character and at the end. *)
Definition replace (t old new : text) : text :=
  match old with
  | [] => new ++ flat_map (fun c => c :: new) t
  | _ => replace_scan old new 0 t
  end.

(** Line boundaries of [str.splitlines]. *)
Definition is_linebreak (c : char) : bool :=
  in_range 0x0A 0x0D c || in_range 0x1C 0x1E c
  || (c =? 0x85) || (c =? 0x2028) || (c =? 0x2029).

(** [t.splitlines(keepends=True)], [cur] being the line under construction;
    a carriage return followed by a line feed is one boundary. *)
Fixpoint splitlines_from (cur : text) (t : text) : list text :=
  match t with
  | [] => match cur with [] => [] | _ => [cur] end
  | c :: r =>
    if c =? 0x0D then
      match r with
      | c' :: r' =>
        if c' =? 0x0A then (cur ++ [c; c']) :: splitlines_from [] r'
        else (cur ++ [c]) :: splitlines_from [] r
      | [] => [cur ++ [c]]
      end
    else if is_linebreak c then (cur ++ [c]) :: splitlines_from [] r
    else splitlines_from (cur ++ [c]) r
  end.

Definition splitlines (t : text) : list text := splitlines_from [] t.

(** ** Encoding labels and per-file actions *)

Inductive label : Type :=
| ascii_only | utf8 | utf8_bom | utf8_bom_invalid
| utf16_le | utf16_be | ansi_cp1252 | binary
| unknown.

Inductive action : Type :=
| a_ok | a_skip | a_decode_error | a_dry_run | a_backup_exists | a_write | a_error.

#[global] Instance label_eq_dec : EqDecision label.
Proof. solve_decision. Defined.
#[global] Instance action_eq_dec : EqDecision action.
Proof. solve_decision. Defined.

(** ** Functions the three scripts define with the same text *)

(** [_classify_bytes]: label and payload. [utf8_decode] raises nothing but
    [UnicodeDecodeError], the exception both handlers catch. *)
Definition _classify_bytes (data : bytes) : label * bytes :=
  if startswith data [xef; xbb; xbf] then
    match utf8_decode (drop 3 data) with
    | Ok _ => (utf8_bom, drop 3 data)
    | Raise _ => (utf8_bom_invalid, drop 3 data)
    end
  else if startswith data [xff; xfe] then (utf16_le, data)
  else if startswith data [xfe; xff] then (utf16_be, data)
  else if bool_decide (x00 ∈ data) then (binary, data)
  else
    match utf8_decode data with
    | Ok _ => (utf8, data)
    | Raise _ => (ansi_cp1252, data)
    end.

(** [any(b >= 0x80 for b in payload)] *)
Definition non_ascii (payload : bytes) : bool :=
  existsb (fun b => 0x80 <=? Byte.to_N b) payload.

(** [classify] of the normalizer and of the mojibake fixer. *)
Definition classify (data : bytes) : label :=
  let '(lbl, payload) := _classify_bytes data in
  if bool_decide (lbl = utf8 \/ lbl = ansi_cp1252) && negb (non_ascii payload)
  then ascii_only
  else lbl.

(** [decode_bytes] of the normalizer and of the mojibake fixer; [Ok None]
    is Python's [None]. *)
Definition decode_bytes (data : bytes) (lbl : label) : result (option text) :=
  match lbl with
  | utf8 => rmap Some (utf8_decode data)
  | utf8_bom => rmap Some (utf8_sig_decode data)
  | ascii_only => rmap Some (ascii_decode data)
  | ansi_cp1252 => rmap Some (cp1252_decode data)
  | utf16_le | utf16_be => rmap Some (utf16_decode data)
  | _ => Ok None
  end.

(** ** The file system *)

Abbreviation path := string.
Abbreviation fs := (gmap string (list byte)).

(** Computations that read and write files and may raise: the store
    reached when an exception escapes is kept, as on a real disk. *)
Definition io (A : Type) : Type := fs -> result A * fs.

Definition ret {A} (a : A) : io A := fun s => (Ok a, s).
Definition raise {A} (e : exn) : io A := fun s => (Raise e, s).
Definition bind {A B} (m : io A) (k : A -> io B) : io B :=
  fun s => match m s with
           | (Ok a, s') => k a s'
           | (Raise e, s') => (Raise e, s')
           end.
Definition lift {A} (r : result A) : io A := fun s => (r, s).

Notation "'let!' x ':=' m 'in' k" := (bind m (fun x => k))
  (at level 10, x name, m at level 100, k at level 200).
Notation "'do!' m 'in' k" := (bind m (fun _ => k))
  (at level 10, m at level 100, k at level 200).

(** [path.read_bytes()] *)
Definition read_bytes (p : path) : io bytes :=
  fun s => match s !! p with
           | Some data => (Ok data, s)
           | None => (Raise FileNotFoundError, s)
           end.

(** [path.write_bytes(data)] *)
Definition write_bytes (p : path) (data : bytes) : io unit :=
  fun s => (Ok tt, <[p := data]> s).

(** [path.exists()] and [path.is_file()]: the store holds regular files only. *)
Definition exists_ (p : path) : io bool :=
  fun s => (Ok (bool_decide (is_Some (s !! p))), s).

Definition is_sep (a : Ascii.ascii) : bool := bool_decide (a = "/"%char).

Fixpoint has_sep (s : string) : bool :=
  match s with
  | EmptyString => false
  | String a s' => is_sep a || has_sep s'
  end.

(** [path.with_name(path.name + ext)]: the sibling whose last component is
    extended by [ext]; [with_name] rejects a name holding a separator. *)
Definition with_name_ext (p : path) (ext : string) : result path :=
  if has_sep ext then Raise ValueError else Ok (p +:+ ext).

(** ** [fix_access_mojibake.py]: scoring, repair heuristic, substitution map *)

Definition SUSPICIOUS_TOKENS : list text :=
  [ [0xC3]; [0xC2]; [0xE2; 0x20AC]; [0xFFFD] ].

(** A Python [dict] from [str] to [str]: its items in insertion order,
    keys pairwise distinct. *)
Abbreviation dict := (list (list N * list N)).

Definition SPANISH_DEFAULTS : dict :=
  [
    ([0x6D; 0xFFFD; 0x74; 0x6F; 0x64; 0x6F],
     [0x6D; 0xE9; 0x74; 0x6F; 0x64; 0x6F]);
    ([0x53; 0xFFFD],
     [0x53; 0xED]);
    ([0x72; 0x61; 0xFFFD; 0x7A],
     [0x72; 0x61; 0xED; 0x7A]);
    ([0x65; 0x64; 0x69; 0x63; 0x69; 0xFFFD; 0x6E],
     [0x65; 0x64; 0x69; 0x63; 0x69; 0xF3; 0x6E]);
    ([0x70; 0x5F; 0x41; 0xFFFD; 0x6F],
     [0x70; 0x5F; 0x41; 0xF1; 0x6F]);
    ([0x70; 0x61; 0x72; 0xFFFD; 0x6D; 0x65; 0x74; 0x72; 0x6F],
     [0x70; 0x61; 0x72; 0xE1; 0x6D; 0x65; 0x74; 0x72; 0x6F]);
    ([0x50; 0x72; 0x6F; 0x70; 0xFFFD; 0x73; 0x69; 0x74; 0x6F],
     [0x50; 0x72; 0x6F; 0x70; 0xF3; 0x73; 0x69; 0x74; 0x6F]);
    ([0x50; 0x61; 0x72; 0xFFFD; 0x6D; 0x65; 0x74; 0x72; 0x6F; 0x73],
     [0x50; 0x61; 0x72; 0xE1; 0x6D; 0x65; 0x74; 0x72; 0x6F; 0x73]);
    ([0x73; 0x65; 0x67; 0xFFFD; 0x6E],
     [0x73; 0x65; 0x67; 0xFA; 0x6E]);
    ([0x6A; 0x65; 0x72; 0xFFFD; 0x72; 0x71; 0x75; 0x69; 0x63; 0x6F],
     [0x6A; 0x65; 0x72; 0xE1; 0x72; 0x71; 0x75; 0x69; 0x63; 0x6F]);
    ([0x4C; 0xFFFD; 0x67; 0x69; 0x63; 0x61],
     [0x4C; 0xF3; 0x67; 0x69; 0x63; 0x61]);
    ([0x4D; 0xFFFD; 0x78; 0x44; 0x65; 0x49; 0x44; 0x45; 0x64; 0x69; 0x63; 0x69; 0x6F; 0x6E],
     [0x4D; 0xE1; 0x78; 0x44; 0x65; 0x49; 0x44; 0x45; 0x64; 0x69; 0x63; 0x69; 0x6F; 0x6E]);
    ([0x63; 0x6F; 0x6E; 0x65; 0x78; 0x69; 0xFFFD; 0x6E],
     [0x63; 0x6F; 0x6E; 0x65; 0x78; 0x69; 0xF3; 0x6E]);
    ([0x56; 0x61; 0x6C; 0x69; 0x64; 0x61; 0x63; 0x69; 0xFFFD; 0x6E],
     [0x56; 0x61; 0x6C; 0x69; 0x64; 0x61; 0x63; 0x69; 0xF3; 0x6E]);
    ([0x6C; 0xFFFD; 0x67; 0x69; 0x63; 0x61],
     [0x6C; 0xF3; 0x67; 0x69; 0x63; 0x61]);
    ([0x70; 0x75; 0x62; 0x6C; 0x69; 0x63; 0x61; 0x63; 0x69; 0xFFFD; 0x6E],
     [0x70; 0x75; 0x62; 0x6C; 0x69; 0x63; 0x61; 0x63; 0x69; 0xF3; 0x6E]);
    ([0xFFFD; 0x44; 0x65; 0x73; 0x65; 0x61],
     [0xBF; 0x44; 0x65; 0x73; 0x65; 0x61]);
    ([0x61; 0x63; 0x63; 0x69; 0xFFFD; 0x6E],
     [0x61; 0x63; 0x63; 0x69; 0xF3; 0x6E]);
    ([0x4D; 0xFFFD; 0x6E; 0x44; 0x65; 0x49; 0x44; 0x45; 0x64; 0x69; 0x63; 0x69; 0x6F; 0x6E],
     [0x4D; 0xED; 0x6E; 0x44; 0x65; 0x49; 0x44; 0x45; 0x64; 0x69; 0x63; 0x69; 0x6F; 0x6E]);
    ([0x6A; 0x65; 0x72; 0xFFFD; 0x72; 0x71; 0x75; 0x69; 0x63; 0x61],
     [0x6A; 0x65; 0x72; 0xE1; 0x72; 0x71; 0x75; 0x69; 0x63; 0x61]);
    ([0x6E; 0x75; 0x6D; 0xFFFD; 0x72; 0x69; 0x63; 0x6F],
     [0x6E; 0x75; 0x6D; 0xE9; 0x72; 0x69; 0x63; 0x6F]);
    ([0x70; 0x61; 0x72; 0xFFFD; 0x6D; 0x65; 0x74; 0x72; 0x6F; 0x73],
     [0x70; 0x61; 0x72; 0xE1; 0x6D; 0x65; 0x74; 0x72; 0x6F; 0x73]);
    ([0x43; 0x6F; 0x6E; 0x73; 0x74; 0x72; 0x75; 0x63; 0x63; 0x69; 0xFFFD; 0x6E],
     [0x43; 0x6F; 0x6E; 0x73; 0x74; 0x72; 0x75; 0x63; 0x63; 0x69; 0xF3; 0x6E]);
    ([0x45; 0x6A; 0x65; 0x63; 0x75; 0x63; 0x69; 0xFFFD; 0x6E],
     [0x45; 0x6A; 0x65; 0x63; 0x75; 0x63; 0x69; 0xF3; 0x6E]);
    ([0x76; 0x69; 0x73; 0x75; 0x61; 0x6C; 0x69; 0x7A; 0x61; 0x63; 0x69; 0xFFFD; 0x6E],
     [0x76; 0x69; 0x73; 0x75; 0x61; 0x6C; 0x69; 0x7A; 0x61; 0x63; 0x69; 0xF3; 0x6E]);
    ([0x4E; 0x65; 0x6D; 0x6F; 0x74; 0xFFFD; 0x63; 0x6E; 0x69; 0x63; 0x6F],
     [0x4E; 0x65; 0x6D; 0x6F; 0x74; 0xE9; 0x63; 0x6E; 0x69; 0x63; 0x6F]);
    ([0x76; 0x61; 0x6C; 0x69; 0x64; 0x61; 0x63; 0x69; 0xFFFD; 0x6E],
     [0x76; 0x61; 0x6C; 0x69; 0x64; 0x61; 0x63; 0x69; 0xF3; 0x6E]);
    ([0x54; 0x65; 0x6C; 0x65; 0x66; 0xFFFD; 0x6E; 0x69; 0x63; 0x61],
     [0x54; 0x65; 0x6C; 0x65; 0x66; 0xF3; 0x6E; 0x69; 0x63; 0x61]);
    ([0xFFFD; 0x72; 0x62; 0x6F; 0x6C],
     [0xE1; 0x72; 0x62; 0x6F; 0x6C]);
    ([0x53; 0xFFFD; 0x6C; 0x6F],
     [0x53; 0xF3; 0x6C; 0x6F]);
    ([0x61; 0xFFFD; 0x6F],
     [0x61; 0xF1; 0x6F]);
    ([0x6E; 0xFFFD; 0x6D; 0x65; 0x72; 0x6F],
     [0x6E; 0xFA; 0x6D; 0x65; 0x72; 0x6F]);
    ([0x65; 0x73; 0x74; 0xFFFD],
     [0x65; 0x73; 0x74; 0xE1]);
    ([0x54; 0xFFFD; 0x43; 0x4E; 0x49; 0x43; 0x41],
     [0x54; 0xC9; 0x43; 0x4E; 0x49; 0x43; 0x41])
  ].


(** [d[k] = v]: an existing key keeps its position, a new one goes last. *)
Fixpoint dict_set (k v : text) (d : dict) : dict :=
  match d with
  | [] => [(k, v)]
  | (k', v') :: r =>
    if bool_decide (k' = k) then (k', v) :: r else (k', v') :: dict_set k v r
  end.

(** [d.update(other)] *)
Definition dict_update (d other : dict) : dict :=
  fold_left (fun acc kv => dict_set (fst kv) (snd kv) acc) other d.

(** [mojibake_score] *)
Definition mojibake_score (t : text) : nat :=
  foldr (fun token acc => (count t token + acc)%nat) 0%nat SUSPICIOUS_TOKENS.

(** [text.encode("cp1252").decode("utf-8")] *)
Definition recode (t : text) : result text :=
  let* raw := cp1252_encode t in utf8_decode raw.

(** One iteration of the loop over lines: the state is
    [(new_lines, changed)]. *)
Definition fix_line (st : list text * bool) (line : text) : list text * bool :=
  let '(new_lines, changed) := st in
  match recode line with
  | Raise _ => (new_lines ++ [line], changed)
  | Ok repaired_line =>
    if (mojibake_score repaired_line <? mojibake_score line)%nat
    then (new_lines ++ [repaired_line], true)
    else (new_lines ++ [line], changed)
  end.

(** [fix_utf8_in_cp1252]; [recode] raises nothing but the two Unicode
    errors the handlers catch. *)
Definition fix_utf8_in_cp1252 (t : text) : text * bool :=
  match recode t with
  | Ok repaired =>
    if (mojibake_score repaired <? mojibake_score t)%nat
    then (repaired, true)
    else (t, false)
  | Raise _ =>
    let lines := splitlines t in
    let '(new_lines, changed) := fold_left fix_line lines ([], false) in
    if negb changed then (t, false)
    else
      let repaired := concat new_lines in
      if (mojibake_score repaired <? mojibake_score t)%nat
      then (repaired, true)
      else (t, false)
  end.

(** The lines as the loop of [fix_utf8_in_cp1252] leaves them. *)
Definition repaired_lines (t : text) : list text :=
  fst (fold_left fix_line (splitlines t) ([], false)).

(** [apply_map] *)
Definition apply_map (t : text) (mapping : dict) : text :=
  fold_left (fun acc kv => replace acc (fst kv) (snd kv)) mapping t.

(** [encode_text] *)
Definition encode_text (t : text) (lbl : label) : result bytes :=
  match lbl with
  | ansi_cp1252 => cp1252_encode t
  | ascii_only => ascii_encode t
  | _ => utf8_encode t
  end.

(** The five bytes Python's CP1252 table leaves undefined. *)
Definition cp1252_defined (b : byte) : bool :=
  negb (bool_decide (b ∈ [x81; x8d; x8f; x90; x9d])).


(** ** [check_access_module_encoding.py] *)

Module Check.

(** [classify_file]: label, size, non-ASCII flag, success flag. *)
Definition classify_file (p : path) : io (label * nat * bool * bool) :=
  let! data := read_bytes p in
  let '(lbl, payload) := _classify_bytes data in
  let non_ascii := non_ascii payload in
  if negb non_ascii then ret (ascii_only, length data, false, true)
  else ret (lbl, length data, non_ascii, true).

Record row := Row {
  row_path : path; row_size : nat; row_label : label; row_non_ascii : bool
}.

(** The loop of [main] over the resolved paths. *)
Fixpoint scan (paths : list path) : io (list row) :=
  match paths with
  | [] => ret []
  | p :: rest =>
    let! is_file := exists_ p in
    if negb is_file then scan rest
    else
      let! r := classify_file p in
      let '(lbl, size, na, _) := r in
      let! rows := scan rest in
      ret (Row p size lbl na :: rows)
  end.

Definition is_problem (l : label) : bool :=
  bool_decide (l = utf8_bom \/ l = utf8_bom_invalid \/ l = utf16_le
               \/ l = utf16_be \/ l = binary).

Definition problem (rows : list row) : bool :=
  existsb (fun r => is_problem (row_label r)) rows.

(** [len(text_encs) > 1] *)
Definition mixed_text (rows : list row) : bool :=
  existsb (fun r => bool_decide (row_label r = utf8)) rows
  && existsb (fun r => bool_decide (row_label r = ansi_cp1252)) rows.

(** [main] from the resolved list of paths on: the table and the exit
    code. *)
Definition main (strict : bool) (paths : list path) : io (list row * Z) :=
  match paths with
  | [] => ret ([], 2%Z)
  | _ =>
    let! rows := scan paths in
    if strict && (mixed_text rows || problem rows) then ret (rows, 1%Z)
    else ret (rows, 0%Z)
  end.

End Check.

(** Rows and exit code shared by the two drivers that write; the
    normalizer's table has no score columns, its rows leave them at 0. *)
Record row := Row {
  row_path : path; row_size : nat; row_label : label; row_action : action;
  row_before : nat; row_after : nat
}.

Definition is_problem_action (a : action) : bool :=
  bool_decide (a = a_skip \/ a = a_decode_error \/ a = a_error).

Definition exit_code (strict : bool) (rows : list row) : Z :=
  if strict && existsb (fun r => is_problem_action (row_action r)) rows
  then 1%Z else 0%Z.

(** [path.stat().st_size] of a path known to be a file. *)
Definition st_size (p : path) : io nat :=
  fun s => (Ok (length (default [] (s !! p))), s).

(** [try: ... except Exception: ...] *)
Definition try_except {A} (m : io A) (handler : A) : io A :=
  fun s => match m s with
           | (Ok a, s') => (Ok a, s')
           | (Raise _, s') => (Ok handler, s')
           end.

(** ** [normalize_access_module_encoding.py] *)

Module Normalize.

(** [normalize_file] *)
Definition normalize_file (p : path) (dry_run backup : bool)
    (backup_ext : string) : io (label * action) :=
  let! data := read_bytes p in
  let lbl := classify data in
  if bool_decide (lbl = binary \/ lbl = utf8_bom_invalid) then ret (lbl, a_skip)
  else
    match decode_bytes data lbl with
    | Raise UnicodeDecodeError => ret (lbl, a_decode_error)
    | Raise e => raise e
    | Ok None => ret (lbl, a_skip)
    | Ok (Some t) =>
      let! new_bytes := lift (utf8_encode t) in
      if bool_decide (new_bytes = data) then ret (lbl, a_ok)
      else if dry_run then ret (lbl, a_dry_run)
      else
        let finish :=
          do! write_bytes p new_bytes in
          ret (lbl, a_write) in
        if backup then
          let! backup_path := lift (with_name_ext p backup_ext) in
          let! present := exists_ backup_path in
          if present then ret (lbl, a_backup_exists)
          else do! write_bytes backup_path data in finish
        else finish
    end.

(** The flags of the command line; [store_true] flags default to
    [False]. *)
Record args := Args {
  dry_run : bool; backup : bool; backup_ext : string; strict : bool
}.

Definition defaults : args :=
  {| dry_run := false; backup := false; backup_ext := ".bak"; strict := false |}.

(** The loop of [main] over the resolved paths. *)
Fixpoint process (a : args) (paths : list path) : io (list row) :=
  match paths with
  | [] => ret []
  | p :: rest =>
    let! is_file := exists_ p in
    if negb is_file then process a rest
    else
      let! r := try_except
                  (normalize_file p (dry_run a) (backup a) (backup_ext a))
                  (unknown, a_error) in
      let! size := st_size p in
      let! rows := process a rest in
      ret (Row p size (fst r) (snd r) 0 0 :: rows)
  end.

Definition main (a : args) (paths : list path) : io (list row * Z) :=
  match paths with
  | [] => ret ([], 2%Z)
  | _ =>
    let! rows := process a paths in
    ret (rows, exit_code (strict a) rows)
  end.

End Normalize.

(** ** [fix_access_mojibake.py] *)

Module Fix.

(** Truth value of [mapping]: neither [None] nor empty. *)
Definition truthy (mapping : option dict) : bool :=
  match mapping with
  | Some (_ :: _) => true
  | _ => false
  end.

(** The text transformation in the middle of [normalize_file]: the
    repaired text and the [changed] flag. *)
Definition transform (fix_utf8 : bool) (mapping : option dict)
    (apply_map_flag : bool) (t : text) : text * bool :=
  let '(t1, changed1) :=
    if fix_utf8 then
      let '(t', did_fix) := fix_utf8_in_cp1252 t in (t', false || did_fix)
    else (t, false) in
  if apply_map_flag && truthy mapping then
    let mapped := apply_map t1 (default [] mapping) in
    if bool_decide (mapped <> t1) then (mapped, true) else (t1, changed1)
  else (t1, changed1).

(** [normalize_file] *)
Definition normalize_file (p : path) (apply backup : bool)
    (backup_ext : string) (fix_utf8 : bool) (mapping : option dict)
    (apply_map_flag : bool) : io (label * action * nat * nat) :=
  let! data := read_bytes p in
  let lbl := classify data in
  if bool_decide (lbl = binary \/ lbl = utf8_bom_invalid)
  then ret (lbl, a_skip, 0%nat, 0%nat)
  else
    match decode_bytes data lbl with
    | Raise UnicodeDecodeError => ret (lbl, a_decode_error, 0%nat, 0%nat)
    | Raise e => raise e
    | Ok None => ret (lbl, a_skip, 0%nat, 0%nat)
    | Ok (Some t) =>
      let before := mojibake_score t in
      let '(t', changed) := transform fix_utf8 mapping apply_map_flag t in
      let after := mojibake_score t' in
      if negb changed then ret (lbl, a_ok, before, after)
      else if negb apply then ret (lbl, a_dry_run, before, after)
      else
        let finish :=
          let! out := lift (encode_text t' lbl) in
          do! write_bytes p out in
          ret (lbl, a_write, before, after) in
        if backup then
          let! backup_path := lift (with_name_ext p backup_ext) in
          let! present := exists_ backup_path in
          if present then ret (lbl, a_backup_exists, before, after)
          else do! write_bytes backup_path data in finish
        else finish
    end.

(** The flags of the command line. [map_file] is the object parsed from
    the file named by [--map], when the option is given. *)
Record args := Args {
  apply : bool; backup : bool; backup_ext : string; no_fix_utf8 : bool;
  map_file : option dict; fix_map : bool; spanish_defaults : bool;
  strict : bool
}.

Definition defaults : args :=
  {| apply := false; backup := false; backup_ext := ".bak";
     no_fix_utf8 := false; map_file := None; fix_map := false;
     spanish_defaults := false; strict := false |}.

(** How [main] builds [mapping] and [apply_map_flag]. *)
Definition build_mapping (a : args) : option dict * bool :=
  let mapping : dict := [] in
  let apply_map_flag := false in
  let '(mapping, apply_map_flag) :=
    if spanish_defaults a then (dict_update mapping SPANISH_DEFAULTS, true)
    else (mapping, apply_map_flag) in
  let mapping :=
    match map_file a with
    | Some loaded => dict_update mapping loaded
    | None => mapping
    end in
  let apply_map_flag := if fix_map a then true else apply_map_flag in
  (match mapping with [] => None | _ => Some mapping end, apply_map_flag).

(** The loop of [main] over the resolved paths. *)
Fixpoint process (a : args) (m : option dict * bool) (paths : list path)
    : io (list row) :=
  match paths with
  | [] => ret []
  | p :: rest =>
    let! is_file := exists_ p in
    if negb is_file then process a m rest
    else
      let! r := try_except
                  (normalize_file p (apply a) (backup a) (backup_ext a)
                     (negb (no_fix_utf8 a)) (fst m) (snd m))
                  (unknown, a_error, 0%nat, 0%nat) in
      let '(lbl, act, before, after) := r in
      let! size := st_size p in
      let! rows := process a m rest in
      ret (Row p size lbl act before after :: rows)
  end.

Definition main (a : args) (paths : list path) : io (list row * Z) :=
  match paths with
  | [] => ret ([], 2%Z)
  | _ =>
    let! rows := process a (build_mapping a) paths in
    ret (rows, exit_code (strict a) rows)
  end.

End Fix.

(** Unicode scalar values: the code points [str.encode("utf-8")] accepts. *)
Definition scalar (c : char) : Prop := c <= 0x10FFFF /\ is_surrogate c = false.



(** * Properties *)

(** ** The repair heuristic *)

Section Heuristic.

Implicit Types t : text.

Lemma ltb_nat_spec (a b : nat) : (a <? b)%nat = true <-> (a < b)%nat.
Proof. apply Nat.ltb_lt. Qed.

(** [recode] raises nothing but the two exceptions the handlers of
    [fix_utf8_in_cp1252] name. *)
Lemma cp1252_encode_raises t e :
  cp1252_encode t = Raise e -> e = UnicodeEncodeError.
Proof.
  induction t as [|c r IH]; cbn [cp1252_encode]; [discriminate |].
  destruct (cp1252_encode_char c); [| now intros [= <-]].
  destruct (cp1252_encode r) as [bs|e']; cbn; [discriminate |].
  intros [= <-]. now apply IH.
Qed.

(** Every exit of the heuristic is one of the two gated shapes. *)
Lemma fix_utf8_in_cp1252_cases t :
  fix_utf8_in_cp1252 t = (t, false)
  \/ exists r, fix_utf8_in_cp1252 t = (r, true)
               /\ (mojibake_score r < mojibake_score t)%nat.
Proof.
  unfold fix_utf8_in_cp1252.
  destruct (recode t) as [repaired|e].
  - destruct (mojibake_score repaired <? mojibake_score t)%nat eqn:Hlt.
    + right. exists repaired. split; [reflexivity | now apply ltb_nat_spec].
    + now left.
  - destruct (fold_left fix_line (splitlines t) ([], false)) as [new_lines changed].
    destruct changed; cbn [negb]; [| now left].
    destruct (mojibake_score (concat new_lines) <? mojibake_score t)%nat eqn:Hlt.
    + right. exists (concat new_lines). split; [reflexivity | now apply ltb_nat_spec].
    + now left.
Qed.

(** The aggregate of the line-by-line pass is dropped as a whole when
    the text it yields does not score strictly lower. *)
Lemma fix_utf8_in_cp1252_discards t e :
  recode t = Raise e ->
  (mojibake_score (concat (repaired_lines t)) <? mojibake_score t)%nat = false ->
  fix_utf8_in_cp1252 t = (t, false).
Proof.
  intros Hre Hge. unfold fix_utf8_in_cp1252, repaired_lines in *. rewrite Hre.
  destruct (fold_left fix_line (splitlines t) ([], false)) as [new_lines changed].
  cbn [fst] in Hge. destruct changed; cbn [negb]; [| reflexivity].
  now rewrite Hge.
Qed.

(** Claim C2. For every text, [fix_utf8_in_cp1252] returns either the
    text itself with [changed = False], or a text of strictly lower
    mojibake score with [changed = True]; and when the whole-text
    round trip raises, a line-by-line result whose reassembled score is
    not strictly lower is discarded: the original text comes back,
    unchanged. *)
Theorem C2_repair_is_score_gated t :
  (let '(out, changed) := fix_utf8_in_cp1252 t in
   (changed = false /\ out = t)
   \/ (changed = true /\ (mojibake_score out < mojibake_score t)%nat))
  /\ match recode t with
     | Ok _ => True
     | Raise _ =>
       if (mojibake_score (concat (repaired_lines t)) <? mojibake_score t)%nat
       then fix_utf8_in_cp1252 t = (concat (repaired_lines t), true)
            \/ fix_utf8_in_cp1252 t = (t, false)
       else fix_utf8_in_cp1252 t = (t, false)
     end.
Proof.
  split.
  - destruct (fix_utf8_in_cp1252_cases t) as [H | (r & H & Hlt)]; rewrite H.
    + left; split; reflexivity.
    + right; split; [reflexivity | exact Hlt].
  - destruct (recode t) as [r|e] eqn:Hre; [exact I |].
    destruct (mojibake_score (concat (repaired_lines t)) <? mojibake_score t)%nat eqn:Hlt.
    + unfold fix_utf8_in_cp1252, repaired_lines in *. rewrite Hre.
      destruct (fold_left fix_line (splitlines t) ([], false)) as [new_lines changed].
      cbn [fst] in Hlt. destruct changed; cbn [negb]; [| now right].
      rewrite Hlt. now left.
    + exact (fix_utf8_in_cp1252_discards t e Hre Hlt).
Qed.

(** Claim C10. A text whose mojibake score is 0 is a fixed point of the
    heuristic: it comes back unchanged, with [changed = False]. *)
Theorem C10_score_zero_fixed_point t :
  mojibake_score t = 0%nat -> fix_utf8_in_cp1252 t = (t, false).
Proof.
  intros Hz.
  destruct (fix_utf8_in_cp1252_cases t) as [H | (r & _ & Hlt)]; [exact H | lia].
Qed.

Lemma C10_witness :
  mojibake_score [0x68; 0xE9] = 0%nat
  /\ fix_utf8_in_cp1252 [0x68; 0xE9] = ([0x68; 0xE9], false).
Proof.
  split; [reflexivity |].
  apply (C10_score_zero_fixed_point [0x68; 0xE9]). reflexivity.
Defined.

(** A token whose first character is absent from the text is not
    counted. *)
Lemma count_scan_absent (s : char) (sub : text) skip t :
  Forall (fun c => c <> s) t -> count_scan (s :: sub) skip t = 0%nat.
Proof.
  intros Ht. revert skip.
  induction Ht as [|c r Hc _ IH]; intros skip; cbn [count_scan]; [reflexivity |].
  destruct skip as [|k]; [| apply IH].
  cbn [prefixb]. destruct (N.eqb_spec s c) as [->|_]; [contradiction |].
  cbn [andb]. apply IH.
Qed.

(** Pure ASCII text scores 0, hence is never altered. *)
Lemma ascii_text_scores_zero t :
  Forall (fun c => c < 0x80) t -> mojibake_score t = 0%nat.
Proof.
  intros Ht. unfold mojibake_score, SUSPICIOUS_TOKENS, count. cbn [foldr].
  rewrite !count_scan_absent; [reflexivity | ..];
    (eapply Forall_impl; [exact Ht | cbn; intros c Hc; lia]).
Qed.

Corollary ascii_text_fixed_point t :
  Forall (fun c => c < 0x80) t -> fix_utf8_in_cp1252 t = (t, false).
Proof.
  intros Ht. destruct (fix_utf8_in_cp1252_cases t) as [H | (r & _ & Hlt)]; [exact H |].
  rewrite (ascii_text_scores_zero t Ht) in Hlt. lia.
Qed.

End Heuristic.

(** ** Codecs *)

Ltac nlia := zify; Z.to_euclidean_division_equations; lia.

Lemma rmap_Ok {A B} (f : A -> B) (r : result A) (b : B) :
  rmap f r = Ok b -> exists a, r = Ok a /\ b = f a.
Proof. destruct r as [a|e]; cbn; [intros [= <-]; eauto | discriminate]. Qed.

Lemma rbind_Ok {A B} (r : result A) (k : A -> result B) (b : B) :
  rbind r k = Ok b -> exists a, r = Ok a /\ k a = Ok b.
Proof. destruct r as [a|e]; cbn; [eauto | discriminate]. Qed.

Lemma to_N_byte_of (n : N) : n < 256 -> Byte.to_N (byte_of n) = n.
Proof.
  intros Hn. unfold byte_of. destruct (Byte.of_N n) as [b|] eqn:E.
  - now apply Byte.to_of_N.
  - apply Byte.of_N_None_iff in E. lia.
Qed.

Lemma byte_of_to_N (b : byte) : byte_of (Byte.to_N b) = b.
Proof. unfold byte_of. now rewrite Byte.of_to_N. Qed.

Lemma to_N_lt_256 (b : byte) : Byte.to_N b < 256.
Proof. pose proof (Byte.to_N_bounded b). lia. Qed.

(** *** CP1252 *)

Lemma cp1252_defined_decode (b : byte) :
  cp1252_defined b = true <-> exists c, cp1252_decode_byte b = Some c.
Proof.
  split.
  - destruct b; vm_compute; intros H; try discriminate H; eexists; reflexivity.
  - intros [c Hc]. destruct b; vm_compute in Hc |- *; congruence.
Qed.

Lemma cp1252_byte_round_trip (b : byte) (c : char) :
  cp1252_decode_byte b = Some c -> cp1252_encode_char c = Some b.
Proof.
  intros H. destruct b; vm_compute in H; try discriminate H;
    injection H as <-; vm_compute; reflexivity.
Qed.

Lemma cp1252_decode_total (data : bytes) :
  forallb cp1252_defined data = true -> exists t, cp1252_decode data = Ok t.
Proof.
  induction data as [|b r IH]; cbn [forallb cp1252_decode]; [eauto |].
  intros [Hb Hr]%andb_true_iff. apply cp1252_defined_decode in Hb as [c ->].
  destruct (IH Hr) as [t ->]. cbn. eauto.
Qed.


Lemma cp1252_round_trip (data : bytes) (t : text) :
  cp1252_decode data = Ok t -> cp1252_encode t = Ok data.
Proof.
  revert t. induction data as [|b r IH]; cbn [cp1252_decode]; intros t.
  - now intros [= <-].
  - destruct (cp1252_decode_byte b) as [c|] eqn:Hc; [| discriminate].
    intros (t' & Ht' & ->)%rmap_Ok. cbn [cp1252_encode].
    rewrite (cp1252_byte_round_trip _ _ Hc), (IH _ Ht'). reflexivity.
Qed.




(** Claim C8, as the code has it. For every byte sequence classified
    [ansi-cp1252] that the CP1252 decoder accepts, encoding the decoded
    text back with [encode_text] under the same label gives the input
    bytes again. *)
Theorem C8_cp1252_round_trip (data : bytes) (t : text) :
  classify data = ansi_cp1252 ->
  decode_bytes data ansi_cp1252 = Ok (Some t) ->
  encode_text t ansi_cp1252 = Ok data.
Proof.
  intros _. cbn [decode_bytes encode_text].
  intros (t' & Ht' & [= ->])%rmap_Ok. now apply cp1252_round_trip.
Qed.

Lemma C8_witness :
  classify [xe9; x80; x41] = ansi_cp1252
  /\ decode_bytes [xe9; x80; x41] ansi_cp1252 = Ok (Some [0xE9; 0x20AC; 0x41])
  /\ encode_text [0xE9; 0x20AC; 0x41] ansi_cp1252 = Ok [xe9; x80; x41].
Proof.
  split; [vm_compute; reflexivity |]. split; [vm_compute; reflexivity |].
  apply (C8_cp1252_round_trip [xe9; x80; x41] [0xE9; 0x20AC; 0x41]);
    vm_compute; reflexivity.
Defined.

(** On the file 81 there is no decoded text to encode back. *)
Lemma C8_counterexample :
  classify [x81] = ansi_cp1252
  /\ ~ exists t, decode_bytes [x81] ansi_cp1252 = Ok (Some t)
                 /\ encode_text t ansi_cp1252 = Ok [x81].
Proof.
  split; [vm_compute; reflexivity |].
  intros (t & Ht & _). vm_compute in Ht. discriminate Ht.
Qed.

(** ** Classification *)

Lemma startswith_cons (b : byte) (data pre : bytes) :
  startswith (b :: data) (b :: pre) = startswith data pre.
Proof. cbn [startswith]. destruct (decide (b = b)); congruence. Qed.

Lemma startswith_app (pre rest : bytes) : startswith (pre ++ rest) pre = true.
Proof.
  induction pre as [|b pre IH]; [now destruct rest |].
  cbn [app]. now rewrite startswith_cons.
Qed.

Lemma startswith_inv (data pre : bytes) :
  startswith data pre = true -> data = pre ++ drop (length pre) data.
Proof.
  revert data. induction pre as [|b pre IH]; intros data; [now destruct data |].
  destruct data as [|d data]; cbn [startswith]; [discriminate |].
  destruct (decide (b = d)) as [->|]; [| discriminate].
  intros H. cbn [length drop app]. f_equal. now apply IH.
Qed.

(** The only exception [utf8_decode] raises is the one the classifier
    catches. *)
Lemma utf8_decode_raises (data : bytes) (e : exn) :
  utf8_decode data = Raise e -> e = UnicodeDecodeError.
Proof.
  remember (length data) as n eqn:Hn. revert data Hn.
  induction n as [n IH] using lt_wf_ind. intros data Hn.
  assert (Hrec : forall (f : char) r, (length r < n)%nat ->
            rmap (cons f) (utf8_decode r) = Raise e -> e = UnicodeDecodeError).
  { intros f r Hlt. destruct (utf8_decode r) as [t|e'] eqn:Hr; cbn; [discriminate |].
    intros [= <-]. exact (IH _ Hlt r eq_refl Hr). }
  destruct data as [|b0 r0]; cbn [utf8_decode]; [discriminate |].
  cbn [length] in Hn.
  repeat match goal with
  | |- (if ?c then _ else _) = _ -> _ => destruct c
  | |- match ?l with [] => _ | _ :: _ => _ end = _ -> _ =>
      let b := fresh "b" in destruct l as [|b ?]; cbn [length] in Hn
  | |- Raise _ = Raise _ -> _ => now intros [= <-]
  | |- rmap _ _ = _ -> _ => apply Hrec; lia
  end.
Qed.

Lemma recode_raises (t : text) (e : exn) :
  recode t = Raise e -> e = UnicodeEncodeError \/ e = UnicodeDecodeError.
Proof.
  unfold recode. destruct (cp1252_encode t) as [raw|e'] eqn:E; cbn.
  - intros H. right. now apply utf8_decode_raises in H.
  - intros [= <-]. left. now apply cp1252_encode_raises in E.
Qed.

(** What the classifier of the normalizer and of the mojibake fixer
    answers on a file that starts with the UTF-8 marker. *)
Lemma classify_bom (rest : bytes) :
  _classify_bytes (BOM_UTF8 ++ rest)
  = (match utf8_decode rest with Ok _ => utf8_bom | Raise _ => utf8_bom_invalid end,
     rest)
  /\ classify (BOM_UTF8 ++ rest)
     = match utf8_decode rest with Ok _ => utf8_bom | Raise _ => utf8_bom_invalid end.
Proof.
  assert (H : _classify_bytes (BOM_UTF8 ++ rest)
    = (match utf8_decode rest with Ok _ => utf8_bom | Raise _ => utf8_bom_invalid end, rest)).
  { unfold _classify_bytes. change [xef; xbb; xbf] with BOM_UTF8.
    rewrite startswith_app. change (drop 3 (BOM_UTF8 ++ rest)) with rest.
    now destruct (utf8_decode rest). }
  split; [exact H |]. unfold classify. rewrite H.
  now destruct (utf8_decode rest).
Qed.

(** The same classifier on a file that holds a zero byte and starts with
    none of the three markers. *)
Lemma classify_nul (data : bytes) :
  x00 ∈ data ->
  startswith data BOM_UTF8 = false ->
  startswith data [xff; xfe] = false ->
  startswith data [xfe; xff] = false ->
  _classify_bytes data = (binary, data) /\ classify data = binary.
Proof.
  intros Hnul H8 Hle Hbe.
  assert (H : _classify_bytes data = (binary, data)).
  { unfold _classify_bytes. change [xef; xbb; xbf] with BOM_UTF8.
    rewrite H8, Hle, Hbe. now rewrite bool_decide_eq_true_2. }
  split; [exact H |]. unfold classify. now rewrite H.
Qed.

(** [classify_file] of the checker tests the payload for non-ASCII bytes
    whatever the label is. *)
Lemma check_classify_file (p : path) (s : fs) (data : bytes) :
  s !! p = Some data ->
  Check.classify_file p s
  = (Ok (if non_ascii (snd (_classify_bytes data))
         then (fst (_classify_bytes data), length data, true, true)
         else (ascii_only, length data, false, true)), s).
Proof.
  intros Hp. unfold Check.classify_file, bind, read_bytes, ret. rewrite Hp.
  destruct (_classify_bytes data) as [lbl payload]. cbn [fst snd].
  now destruct (non_ascii payload).
Qed.

(** Claim C4 on the code. The file EF BB BF 68 69 starts with the UTF-8
    marker and goes on with valid UTF-8: [_classify_bytes] strips the
    marker and answers [utf8-bom], and so does [classify] in the normalizer
    and in the mojibake fixer; [classify_file] of the checker reports
    [ascii-only] for the same bytes, and a strict check of that file
    ends with exit code 0. *)
Theorem C4_checker_reports_bom_file_as_ascii :
  let data := [xef; xbb; xbf; x68; x69] in
  let s : fs := {[ "m.bas"%string := data ]} in
  _classify_bytes data = (utf8_bom, [x68; x69])
  /\ classify data = utf8_bom
  /\ fst (Check.classify_file "m.bas" s) = Ok (ascii_only, 5%nat, false, true)
  /\ fst (Check.main true ["m.bas"%string] s)
     = Ok ([Check.Row "m.bas" 5 ascii_only false], 0%Z).
Proof. vm_compute. repeat split; reflexivity. Qed.

(** Claim C5 on the code. The file 41 00 42 holds a zero byte and no
    marker: [_classify_bytes] answers [binary], and [classify] in the
    normalizer and in the mojibake fixer keeps that label;
    [classify_file] of the checker replaces it by [ascii-only], and a
    strict check of that file ends with exit code 0. *)
Theorem C5_checker_reports_nul_file_as_ascii :
  let data := [x41; x00; x42] in
  let s : fs := {[ "m.bas"%string := data ]} in
  _classify_bytes data = (binary, data)
  /\ classify data = binary
  /\ fst (Check.classify_file "m.bas" s) = Ok (ascii_only, 3%nat, false, true)
  /\ fst (Check.main true ["m.bas"%string] s)
     = Ok ([Check.Row "m.bas" 3 ascii_only false], 0%Z).
Proof. vm_compute. repeat split; reflexivity. Qed.

(** *** UTF-8 *)

Lemma utf8_decode_unfold (b0 : byte) (r0 : bytes) :
  utf8_decode (b0 :: r0) =
    let n0 := Byte.to_N b0 in
    if n0 <? 0x80 then rmap (cons n0) (utf8_decode r0)
    else if in_range 0xC2 0xDF n0 then
      match r0 with
      | b1 :: r1 =>
        if is_cont b1
        then rmap (cons ((n0 - 0xC0) * 64 + cont_bits b1)) (utf8_decode r1)
        else Raise UnicodeDecodeError
      | _ => Raise UnicodeDecodeError
      end
    else if in_range 0xE0 0xEF n0 then
      match r0 with
      | b1 :: b2 :: r2 =>
        let c := (n0 - 0xE0) * 4096 + cont_bits b1 * 64 + cont_bits b2 in
        if is_cont b1 && is_cont b2 && (0x800 <=? c) && negb (is_surrogate c)
        then rmap (cons c) (utf8_decode r2)
        else Raise UnicodeDecodeError
      | _ => Raise UnicodeDecodeError
      end
    else if in_range 0xF0 0xF4 n0 then
      match r0 with
      | b1 :: b2 :: b3 :: r3 =>
        let c := (n0 - 0xF0) * 262144 + cont_bits b1 * 4096
                 + cont_bits b2 * 64 + cont_bits b3 in
        if is_cont b1 && is_cont b2 && is_cont b3 && in_range 0x10000 0x10FFFF c
        then rmap (cons c) (utf8_decode r3)
        else Raise UnicodeDecodeError
      | _ => Raise UnicodeDecodeError
      end
    else Raise UnicodeDecodeError.
Proof. reflexivity. Qed.

Lemma ltb_true (a b : N) : a < b -> (a <? b) = true.
Proof. apply N.ltb_lt. Qed.

Lemma ltb_false (a b : N) : b <= a -> (a <? b) = false.
Proof. apply N.ltb_ge. Qed.

Lemma leb_true (a b : N) : a <= b -> (a <=? b) = true.
Proof. apply N.leb_le. Qed.

Lemma in_range_true (lo hi n : N) : lo <= n <= hi -> in_range lo hi n = true.
Proof. intros [H1 H2]. unfold in_range. now rewrite !leb_true. Qed.

Lemma in_range_false (lo hi n : N) : n < lo \/ hi < n -> in_range lo hi n = false.
Proof.
  intros H. unfold in_range. apply andb_false_iff.
  destruct H; [left | right]; now apply N.leb_gt.
Qed.

Lemma in_range_spec (lo hi n : N) : in_range lo hi n = true <-> lo <= n <= hi.
Proof. unfold in_range. rewrite andb_true_iff, !N.leb_le. tauto. Qed.

Lemma is_cont_byte_of (n : N) : 0x80 <= n <= 0xBF -> is_cont (byte_of n) = true.
Proof.
  intros H. unfold is_cont. rewrite to_N_byte_of by lia. now apply in_range_true.
Qed.

Lemma cont_bits_byte_of (n : N) : n < 256 -> cont_bits (byte_of n) = n - 0x80.
Proof. intros H. unfold cont_bits. now rewrite to_N_byte_of. Qed.

(** Decoding consumes exactly the bytes one character was encoded to. *)
Lemma utf8_decode_encode_char (c : char) (bs rest : bytes) :
  utf8_encode_char c = Ok bs ->
  utf8_decode (bs ++ rest) = rmap (cons c) (utf8_decode rest).
Proof.
  unfold utf8_encode_char.
  destruct (N.ltb_spec c 0x80) as [H1|H1].
  { intros [= <-]. cbn [app]. rewrite utf8_decode_unfold. cbv zeta.
    rewrite to_N_byte_of by lia. now rewrite ltb_true. }
  destruct (N.ltb_spec c 0x800) as [H2|H2].
  { intros [= <-]. cbn [app]. rewrite utf8_decode_unfold. cbv zeta.
    rewrite to_N_byte_of by nlia.
    rewrite ltb_false by nlia. rewrite in_range_true by nlia.
    rewrite is_cont_byte_of by nlia. rewrite cont_bits_byte_of by nlia.
    f_equal. f_equal. nlia. }
  destruct (N.ltb_spec c 0x10000) as [H3|H3].
  { destruct (is_surrogate c) eqn:Hs; [discriminate |].
    assert (Hs' : c < 0xD800 \/ 0xDFFF < c).
    { unfold is_surrogate, in_range in Hs. apply andb_false_iff in Hs.
      destruct Hs as [Hs|Hs]; apply N.leb_gt in Hs; lia. }
    intros [= <-]. cbn [app]. rewrite utf8_decode_unfold. cbv zeta.
    rewrite to_N_byte_of by nlia.
    rewrite ltb_false by nlia. rewrite in_range_false by nlia.
    rewrite in_range_true by nlia.
    rewrite !is_cont_byte_of by nlia. rewrite !cont_bits_byte_of by nlia.
    replace ((0xE0 + c / 4096 - 0xE0) * 4096 + (0x80 + (c / 64) mod 64 - 0x80) * 64
             + (0x80 + c mod 64 - 0x80)) with c by nlia.
    rewrite leb_true by lia. rewrite Hs. reflexivity. }
  destruct (N.leb_spec c 0x10FFFF) as [H4|H4]; [| discriminate].
  intros [= <-]. cbn [app]. rewrite utf8_decode_unfold. cbv zeta.
  rewrite to_N_byte_of by nlia.
  rewrite ltb_false by nlia. rewrite !in_range_false by nlia.
  rewrite in_range_true by nlia.
  rewrite !is_cont_byte_of by nlia. rewrite !cont_bits_byte_of by nlia.
  replace ((0xF0 + c / 262144 - 0xF0) * 262144 + (0x80 + (c / 4096) mod 64 - 0x80) * 4096
           + (0x80 + (c / 64) mod 64 - 0x80) * 64 + (0x80 + c mod 64 - 0x80))
    with c by nlia.
  rewrite in_range_true by lia. reflexivity.
Qed.

Lemma utf8_encode_cons_Ok (c : char) (t : text) (bs : bytes) :
  utf8_encode (c :: t) = Ok bs ->
  exists b1 rest, utf8_encode_char c = Ok b1 /\ utf8_encode t = Ok rest
                  /\ bs = b1 ++ rest.
Proof.
  cbn [utf8_encode]. intros (b1 & Hc & (rest & Ht & [= <-])%rbind_Ok)%rbind_Ok.
  eauto.
Qed.

(** [data.decode("utf-8")] undoes [text.encode("utf-8")]. *)
Lemma utf8_round_trip (t : text) (bs : bytes) :
  utf8_encode t = Ok bs -> utf8_decode bs = Ok t.
Proof.
  revert bs. induction t as [|c t IH]; intros bs.
  - now intros [= <-].
  - intros (b1 & rest & Hc & Ht & ->)%utf8_encode_cons_Ok.
    rewrite (utf8_decode_encode_char _ _ _ Hc), (IH _ Ht). reflexivity.
Qed.

(** The first byte of an encoded character is at most F4. *)
Lemma utf8_encode_char_head (c : char) (bs : bytes) :
  utf8_encode_char c = Ok bs ->
  exists b r, bs = b :: r /\ Byte.to_N b <= 0xF4.
Proof.
  unfold utf8_encode_char.
  destruct (N.ltb_spec c 0x80) as [H1|H1].
  { intros [= <-]. eexists _, _. split; [reflexivity |]. rewrite to_N_byte_of; lia. }
  destruct (N.ltb_spec c 0x800) as [H2|H2].
  { intros [= <-]. eexists _, _. split; [reflexivity |]. rewrite to_N_byte_of; nlia. }
  destruct (N.ltb_spec c 0x10000) as [H3|H3].
  { destruct (is_surrogate c); [discriminate |].
    intros [= <-]. eexists _, _. split; [reflexivity |]. rewrite to_N_byte_of; nlia. }
  destruct (N.leb_spec c 0x10FFFF) as [H4|H4]; [| discriminate].
  intros [= <-]. eexists _, _. split; [reflexivity |]. rewrite to_N_byte_of; nlia.
Qed.

(** Encoded text never starts with a UTF-16 marker. *)
Lemma utf8_encode_no_utf16_marker (t : text) (bs : bytes) :
  utf8_encode t = Ok bs ->
  startswith bs [xff; xfe] = false /\ startswith bs [xfe; xff] = false.
Proof.
  destruct t as [|c t].
  - intros [= <-]. split; reflexivity.
  - intros (b1 & rest & Hc & _ & ->)%utf8_encode_cons_Ok.
    destruct (utf8_encode_char_head _ _ Hc) as (b & r & -> & Hb).
    cbn [app startswith].
    split; (destruct (decide (_ = b)) as [<-|]; [vm_compute in Hb; congruence | reflexivity]).
Qed.

(** Payloads without a byte above 7F decode to their own byte values,
    under UTF-8 and under ASCII alike. *)
Lemma ascii_payload_decode (data : bytes) :
  non_ascii data = false ->
  utf8_decode data = Ok (map Byte.to_N data)
  /\ ascii_decode data = Ok (map Byte.to_N data).
Proof.
  induction data as [|b r IH]; [now split |].
  cbn [non_ascii existsb]. intros [Hb Hr]%orb_false_iff.
  apply N.leb_gt in Hb. destruct (IH Hr) as [IH1 IH2].
  rewrite utf8_decode_unfold. cbv zeta. cbn [ascii_decode map].
  rewrite ltb_true by exact Hb. rewrite IH1, IH2. now split.
Qed.

(** ** The drivers that write *)

(** Case analysis on every test and scrutinee of the goal. *)
Ltac break_goal :=
  cbv zeta;
  repeat match goal with
  | |- context [match ?x with _ => _ end] =>
      match type of x with
      | sumbool _ _ => destruct x
      | _ => let E := fresh "E" in destruct x eqn:E
      end
  end.

(** [normalize_file] of the normalizer, with the store made explicit. *)
Lemma normalize_file_run (p : path) (dry_run backup : bool) (ext : string) (s : fs) :
  Normalize.normalize_file p dry_run backup ext s =
  match s !! p with
  | None => (Raise FileNotFoundError, s)
  | Some data =>
    let lbl := classify data in
    if bool_decide (lbl = binary \/ lbl = utf8_bom_invalid) then (Ok (lbl, a_skip), s)
    else
      match decode_bytes data lbl with
      | Raise UnicodeDecodeError => (Ok (lbl, a_decode_error), s)
      | Raise e => (Raise e, s)
      | Ok None => (Ok (lbl, a_skip), s)
      | Ok (Some t) =>
        match utf8_encode t with
        | Raise e => (Raise e, s)
        | Ok new_bytes =>
          if bool_decide (new_bytes = data) then (Ok (lbl, a_ok), s)
          else if dry_run then (Ok (lbl, a_dry_run), s)
          else if backup then
            match with_name_ext p ext with
            | Raise e => (Raise e, s)
            | Ok backup_path =>
              if bool_decide (is_Some (s !! backup_path))
              then (Ok (lbl, a_backup_exists), s)
              else (Ok (lbl, a_write), <[p := new_bytes]> (<[backup_path := data]> s))
            end
          else (Ok (lbl, a_write), <[p := new_bytes]> s)
        end
      end
  end.
Proof.
  unfold Normalize.normalize_file, bind, read_bytes, ret, raise, lift, exists_,
    write_bytes.
  destruct (s !! p) as [data|]; [| reflexivity]. cbv zeta.
  destruct (bool_decide _); [reflexivity |].
  destruct (decode_bytes data (classify data)) as [[t|]|[]]; try reflexivity.
  destruct (utf8_encode t) as [new_bytes|e]; [| reflexivity].
  break_goal; reflexivity.
Qed.

(** [normalize_file] of the mojibake fixer, with the store made explicit. *)
Lemma fix_normalize_file_run (p : path) (apply backup : bool) (ext : string)
    (fix_utf8 : bool) (mapping : option dict) (flag : bool) (s : fs) :
  Fix.normalize_file p apply backup ext fix_utf8 mapping flag s =
  match s !! p with
  | None => (Raise FileNotFoundError, s)
  | Some data =>
    let lbl := classify data in
    if bool_decide (lbl = binary \/ lbl = utf8_bom_invalid)
    then (Ok (lbl, a_skip, 0%nat, 0%nat), s)
    else
      match decode_bytes data lbl with
      | Raise UnicodeDecodeError => (Ok (lbl, a_decode_error, 0%nat, 0%nat), s)
      | Raise e => (Raise e, s)
      | Ok None => (Ok (lbl, a_skip, 0%nat, 0%nat), s)
      | Ok (Some t) =>
        let before := mojibake_score t in
        let t' := fst (Fix.transform fix_utf8 mapping flag t) in
        let after := mojibake_score t' in
        if negb (snd (Fix.transform fix_utf8 mapping flag t))
        then (Ok (lbl, a_ok, before, after), s)
        else if negb apply then (Ok (lbl, a_dry_run, before, after), s)
        else if backup then
          match with_name_ext p ext with
          | Raise e => (Raise e, s)
          | Ok backup_path =>
            if bool_decide (is_Some (s !! backup_path))
            then (Ok (lbl, a_backup_exists, before, after), s)
            else
              match encode_text t' lbl with
              | Raise e => (Raise e, <[backup_path := data]> s)
              | Ok out =>
                (Ok (lbl, a_write, before, after),
                 <[p := out]> (<[backup_path := data]> s))
              end
          end
        else
          match encode_text t' lbl with
          | Raise e => (Raise e, s)
          | Ok out => (Ok (lbl, a_write, before, after), <[p := out]> s)
          end
      end
  end.
Proof.
  unfold Fix.normalize_file, bind, read_bytes, ret, raise, lift, exists_,
    write_bytes.
  destruct (s !! p) as [data|]; [| reflexivity]. cbv zeta.
  destruct (bool_decide _); [reflexivity |].
  destruct (decode_bytes data (classify data)) as [[t|]|[]]; try reflexivity.
  destruct (Fix.transform fix_utf8 mapping flag t) as [t' changed]. cbn [fst snd].
  break_goal; reflexivity.
Qed.

(** *** Runs that leave the store alone *)

Lemma normalize_dry_run_frame (p : path) (backup : bool) (ext : string) (s : fs) :
  snd (Normalize.normalize_file p true backup ext s) = s.
Proof. rewrite normalize_file_run. cbv zeta. break_goal; reflexivity. Qed.

Lemma fix_no_apply_frame (p : path) (backup : bool) (ext : string)
    (fix_utf8 : bool) (mapping : option dict) (flag : bool) (s : fs) :
  snd (Fix.normalize_file p false backup ext fix_utf8 mapping flag s) = s.
Proof. rewrite fix_normalize_file_run. cbn [negb]. break_goal; reflexivity. Qed.

Lemma normalize_process_frame (a : Normalize.args) (paths : list path) (s : fs) :
  Normalize.dry_run a = true -> snd (Normalize.process a paths s) = s.
Proof.
  intros Hdry. induction paths as [|p rest IH]; [reflexivity |].
  cbn [Normalize.process]. unfold bind at 1. unfold exists_ at 1.
  destruct (bool_decide (is_Some (s !! p))); cbn [negb]; [| exact IH].
  unfold bind, try_except, st_size, ret. rewrite Hdry.
  pose proof (normalize_dry_run_frame p (Normalize.backup a) (Normalize.backup_ext a) s) as Hf.
  destruct (Normalize.normalize_file _ _ _ _ s) as [r s1]. cbn [snd] in Hf. subst s1.
  destruct r as [r|e]; destruct (Normalize.process a rest s) as [[rows|e'] s2];
    cbn [snd] in IH; subst s2; reflexivity.
Qed.

Lemma fix_process_frame (a : Fix.args) (m : option dict * bool)
    (paths : list path) (s : fs) :
  Fix.apply a = false -> snd (Fix.process a m paths s) = s.
Proof.
  intros Hap. induction paths as [|p rest IH]; [reflexivity |].
  cbn [Fix.process]. unfold bind at 1. unfold exists_ at 1.
  destruct (bool_decide (is_Some (s !! p))); cbn [negb]; [| exact IH].
  unfold bind, try_except, st_size, ret. rewrite Hap.
  pose proof (fix_no_apply_frame p (Fix.backup a) (Fix.backup_ext a)
                (negb (Fix.no_fix_utf8 a)) (fst m) (snd m) s) as Hf.
  destruct (Fix.normalize_file _ _ _ _ _ _ _ s) as [r s1]. cbn [snd] in Hf. subst s1.
  destruct r as [[[[lbl act] before] after]|e];
    destruct (Fix.process a m rest s) as [[rows|e'] s2];
    cbn [snd] in IH; subst s2; reflexivity.
Qed.

Lemma normalize_main_frame (a : Normalize.args) (paths : list path) (s : fs) :
  Normalize.dry_run a = true -> snd (Normalize.main a paths s) = s.
Proof.
  intros Hdry. unfold Normalize.main. destruct paths as [|p rest]; [reflexivity |].
  unfold bind, ret. pose proof (normalize_process_frame a (p :: rest) s Hdry) as Hf.
  destruct (Normalize.process a (p :: rest) s) as [[rows|e] s1];
    cbn [snd] in Hf; subst s1; reflexivity.
Qed.

Lemma fix_main_frame (a : Fix.args) (paths : list path) (s : fs) :
  Fix.apply a = false -> snd (Fix.main a paths s) = s.
Proof.
  intros Hap. unfold Fix.main. destruct paths as [|p rest]; [reflexivity |].
  unfold bind, ret.
  pose proof (fix_process_frame a (Fix.build_mapping a) (p :: rest) s Hap) as Hf.
  destruct (Fix.process a (Fix.build_mapping a) (p :: rest) s) as [[rows|e] s1];
    cbn [snd] in Hf; subst s1; reflexivity.
Qed.

(** A label that decodes to a text is none of the two skipped ones. *)
Lemma decoded_label_not_skipped (data : bytes) (lbl : label) (t : text) :
  decode_bytes data lbl = Ok (Some t) ->
  bool_decide (lbl = binary \/ lbl = utf8_bom_invalid) = false.
Proof.
  intros H. apply bool_decide_eq_false_2. intros [-> | ->]; discriminate H.
Qed.

Lemma fix_dry_run_report (p : path) (backup : bool) (ext : string)
    (fix_utf8 : bool) (mapping : option dict) (flag : bool) (s : fs)
    (data : bytes) (t : text) :
  s !! p = Some data ->
  decode_bytes data (classify data) = Ok (Some t) ->
  snd (Fix.transform fix_utf8 mapping flag t) = true ->
  Fix.normalize_file p false backup ext fix_utf8 mapping flag s
  = (Ok (classify data, a_dry_run, mojibake_score t,
         mojibake_score (fst (Fix.transform fix_utf8 mapping flag t))), s).
Proof.
  intros Hp Hdec Hch. rewrite fix_normalize_file_run, Hp. cbv zeta.
  rewrite (decoded_label_not_skipped _ _ _ Hdec), Hdec, Hch. reflexivity.
Qed.

Lemma normalize_dry_run_report (p : path) (backup : bool) (ext : string) (s : fs)
    (data new_bytes : bytes) (t : text) :
  s !! p = Some data ->
  decode_bytes data (classify data) = Ok (Some t) ->
  utf8_encode t = Ok new_bytes ->
  new_bytes <> data ->
  Normalize.normalize_file p true backup ext s = (Ok (classify data, a_dry_run), s).
Proof.
  intros Hp Hdec Henc Hne. rewrite normalize_file_run, Hp. cbv zeta.
  rewrite (decoded_label_not_skipped _ _ _ Hdec), Hdec, Henc.
  now rewrite bool_decide_eq_false_2.
Qed.

(** Claim C1, as the code has it. The mojibake fixer writes nothing
    unless [--apply] is given, and [--apply] is off by default: its whole
    run leaves every file as it was, and a file whose text the repair
    changed is reported as [dry-run]. The normalizer has no apply flag: it
    leaves every file as it was when [--dry-run] is given, and then
    reports a file whose UTF-8 form differs from its bytes as
    [dry-run]. *)
Theorem C1_writes_need_apply_or_absent_dry_run :
  (forall (a : Fix.args) (paths : list path) (s : fs),
      Fix.apply a = false -> snd (Fix.main a paths s) = s)
  /\ Fix.apply Fix.defaults = false
  /\ (forall (p : path) backup ext fix_utf8 mapping flag (s : fs) data t,
      s !! p = Some data ->
      decode_bytes data (classify data) = Ok (Some t) ->
      snd (Fix.transform fix_utf8 mapping flag t) = true ->
      Fix.normalize_file p false backup ext fix_utf8 mapping flag s
      = (Ok (classify data, a_dry_run, mojibake_score t,
             mojibake_score (fst (Fix.transform fix_utf8 mapping flag t))), s))
  /\ (forall (a : Normalize.args) (paths : list path) (s : fs),
      Normalize.dry_run a = true -> snd (Normalize.main a paths s) = s)
  /\ (forall (p : path) backup ext (s : fs) data new_bytes t,
      s !! p = Some data ->
      decode_bytes data (classify data) = Ok (Some t) ->
      utf8_encode t = Ok new_bytes ->
      new_bytes <> data ->
      Normalize.normalize_file p true backup ext s
      = (Ok (classify data, a_dry_run), s)).
Proof.
  split; [exact fix_main_frame |]. split; [reflexivity |].
  split; [exact fix_dry_run_report |].
  split; [exact normalize_main_frame | exact normalize_dry_run_report].
Qed.

Lemma C1_witness :
  let s : fs := {[ "m.bas"%string := [x6d; xc3; x83; xc2; xa9] ]} in
  snd (Fix.main Fix.defaults ["m.bas"%string] s) = s
  /\ Fix.normalize_file "m.bas" false false ".bak" true None false s
     = (Ok (utf8, a_dry_run, 1%nat, 0%nat), s)
  /\ snd (Normalize.main (Normalize.Args true false ".bak" false) ["m.bas"%string]
            {[ "m.bas"%string := [xef; xbb; xbf; x68; x69] ]})
     = {[ "m.bas"%string := [xef; xbb; xbf; x68; x69] ]}
  /\ Normalize.normalize_file "m.bas" true false ".bak"
       {[ "m.bas"%string := [xef; xbb; xbf; x68; x69] ]}
     = (Ok (utf8_bom, a_dry_run), {[ "m.bas"%string := [xef; xbb; xbf; x68; x69] ]}).
Proof.
  destruct C1_writes_need_apply_or_absent_dry_run as (Hfix & _ & Hfixr & Hnorm & Hnormr).
  intros s. split; [apply Hfix; reflexivity |].
  split.
  { apply (Hfixr "m.bas"%string false ".bak"%string true None false s
             [x6d; xc3; x83; xc2; xa9] [0x6D; 0xC3; 0xA9]); vm_compute; reflexivity. }
  split; [apply Hnorm; reflexivity |].
  apply (Hnormr "m.bas"%string false ".bak"%string _
           [xef; xbb; xbf; x68; x69] [x68; x69] [0x68; 0x69]);
    [vm_compute; reflexivity .. | discriminate].
Defined.

(** Run with no flag at all, the normalizer rewrites a file that starts
    with the UTF-8 marker. *)
Lemma C1_counterexample :
  let s : fs := {[ "m.bas"%string := [xef; xbb; xbf; x68; x69] ]} in
  let r := Normalize.main Normalize.defaults ["m.bas"%string] s in
  Normalize.dry_run Normalize.defaults = false
  /\ fst r = Ok ([Row "m.bas" 2 utf8_bom a_write 0 0], 0%Z)
  /\ s !! "m.bas"%string = Some [xef; xbb; xbf; x68; x69]
  /\ snd r !! "m.bas"%string = Some [x68; x69]
  /\ snd r <> s.
Proof.
  intros s r. repeat split; try (vm_compute; reflexivity).
  intros H. apply (f_equal (fun m : fs => m !! "m.bas"%string)) in H.
  vm_compute in H. discriminate H.
Qed.

(** *** The backup guard *)

(** Case analysis on the tests of a hypothesis, dropping dead branches. *)
Ltac break_hyp H :=
  cbv zeta in H;
  repeat match type of H with
  | context [match ?x with _ => _ end] =>
      let E := fresh "E" in destruct x eqn:E; try discriminate H
  end.

(** Claim C7. For either driver and every file on which a change is
    detected (a run that may not write reports [dry-run]): when writing
    and backups are both enabled and the backup path already exists, the
    per-file operation returns [backup-exists] and the store, hence the
    file and the existing backup, is exactly what it was. *)
Theorem C7_backup_guard :
  (forall (p : path) (ext : string) (s s0 : fs) lbl backup_path,
      Normalize.normalize_file p true true ext s = (Ok (lbl, a_dry_run), s0) ->
      with_name_ext p ext = Ok backup_path ->
      is_Some (s !! backup_path) ->
      Normalize.normalize_file p false true ext s = (Ok (lbl, a_backup_exists), s))
  /\ (forall (p : path) (ext : string) fix_utf8 mapping flag (s s0 : fs)
        lbl before after backup_path,
      Fix.normalize_file p false true ext fix_utf8 mapping flag s
      = (Ok (lbl, a_dry_run, before, after), s0) ->
      with_name_ext p ext = Ok backup_path ->
      is_Some (s !! backup_path) ->
      Fix.normalize_file p true true ext fix_utf8 mapping flag s
      = (Ok (lbl, a_backup_exists, before, after), s)).
Proof.
  split.
  - intros p ext s s0 lbl bp Hdry Hbp Hex.
    rewrite normalize_file_run in Hdry |- *. rewrite Hbp.
    rewrite (bool_decide_eq_true_2 _ Hex). cbv zeta in Hdry |- *.
    break_hyp Hdry; injection Hdry as <- _; reflexivity.
  - intros p ext fx m fl s s0 lbl before after bp Hdry Hbp Hex.
    rewrite fix_normalize_file_run in Hdry |- *. rewrite Hbp.
    rewrite (bool_decide_eq_true_2 _ Hex). cbv zeta in Hdry |- *.
    cbn [negb] in Hdry |- *.
    break_hyp Hdry; injection Hdry as <- <- <- _; reflexivity.
Qed.

Lemma C7_witness :
  let s : fs := {[ "m.bas"%string := [xef; xbb; xbf; x68; x69];
                   "m.bas.bak"%string := [x01] ]} in
  let s' : fs := {[ "m.bas"%string := [x6d; xc3; x83; xc2; xa9];
                    "m.bas.bak"%string := [x01] ]} in
  Normalize.normalize_file "m.bas" false true ".bak" s
  = (Ok (utf8_bom, a_backup_exists), s)
  /\ Fix.normalize_file "m.bas" true true ".bak" true None false s'
     = (Ok (utf8, a_backup_exists, 1%nat, 0%nat), s').
Proof.
  destruct C7_backup_guard as [Hnorm Hfix]. intros s s'. split.
  - apply (Hnorm "m.bas"%string ".bak"%string s s utf8_bom "m.bas.bak"%string);
      [vm_compute; reflexivity .. | ].
    exists [x01]. vm_compute. reflexivity.
  - apply (Hfix "m.bas"%string ".bak"%string true None false s' s' utf8 1%nat 0%nat
             "m.bas.bak"%string); [vm_compute; reflexivity .. | ].
    exists [x01]. vm_compute. reflexivity.
Defined.

(** *** Running the normalizer twice *)

(** What a run that wrote leaves at the path: the UTF-8 encoding of the
    decoded text. *)
Lemma normalize_write_inv (p : path) (backup : bool) (ext : string) (s s' : fs)
    (lbl : label) :
  Normalize.normalize_file p false backup ext s = (Ok (lbl, a_write), s') ->
  exists (data new_bytes : bytes) (t : text),
    s !! p = Some data
    /\ decode_bytes data lbl = Ok (Some t)
    /\ utf8_encode t = Ok new_bytes
    /\ new_bytes <> data
    /\ s' !! p = Some new_bytes.
Proof.
  intros H. rewrite normalize_file_run in H.
  break_hyp H; injection H as <- <-; eexists _, _, _;
    (split; [reflexivity |]); (split; [eassumption |]);
    (split; [eassumption |]);
    (split; [eapply bool_decide_eq_false_1; eassumption |]);
    apply lookup_insert_eq.
Qed.

(** The classifier on encoded text that starts with no marker and holds
    no zero byte. *)
Lemma classify_encoded (t : text) (data : bytes) :
  utf8_encode t = Ok data ->
  startswith data BOM_UTF8 = false ->
  x00 ∉ data ->
  classify data = if non_ascii data then utf8 else ascii_only.
Proof.
  intros Henc Hbom Hnul.
  destruct (utf8_encode_no_utf16_marker _ _ Henc) as [Hle Hbe].
  unfold classify, _classify_bytes. change [xef; xbb; xbf] with BOM_UTF8.
  rewrite Hbom, Hle, Hbe, (bool_decide_eq_false_2 _ Hnul), (utf8_round_trip _ _ Henc).
  cbv beta iota zeta. rewrite bool_decide_eq_true_2 by (left; reflexivity).
  now destruct (non_ascii data).
Qed.

Lemma decode_encoded (t : text) (data : bytes) :
  utf8_encode t = Ok data ->
  decode_bytes data (if non_ascii data then utf8 else ascii_only) = Ok (Some t).
Proof.
  intros Henc. pose proof (utf8_round_trip _ _ Henc) as Hdec.
  destruct (non_ascii data) eqn:Hna; cbn [decode_bytes].
  - now rewrite Hdec.
  - destruct (ascii_payload_decode _ Hna) as [H8 Ha].
    rewrite Ha. rewrite H8 in Hdec. now injection Hdec as <-.
Qed.

(** A file that already holds encoded text, marker-free and without a
    zero byte, is reported [ok] and left alone, whatever the flags. *)
Lemma normalize_encoded_file_ok (p : path) (s : fs) (t : text) (data : bytes)
    (dry_run backup : bool) (ext : string) :
  s !! p = Some data ->
  utf8_encode t = Ok data ->
  startswith data BOM_UTF8 = false ->
  x00 ∉ data ->
  Normalize.normalize_file p dry_run backup ext s
  = (Ok (if non_ascii data then utf8 else ascii_only, a_ok), s).
Proof.
  intros Hp Henc Hbom Hnul. rewrite normalize_file_run, Hp. cbv zeta.
  rewrite (classify_encoded _ _ Henc Hbom Hnul).
  rewrite (decoded_label_not_skipped _ _ _ (decode_encoded _ _ Henc)).
  rewrite (decode_encoded _ _ Henc), Henc.
  now rewrite (bool_decide_eq_true_2 (data = data) eq_refl).
Qed.

(** With a zero byte in the encoded text the second run skips the file as
    [binary]; the bytes stay the same. *)
Lemma normalize_encoded_file_nul (p : path) (s : fs) (t : text) (data : bytes)
    (dry_run backup : bool) (ext : string) :
  s !! p = Some data ->
  utf8_encode t = Ok data ->
  startswith data BOM_UTF8 = false ->
  x00 ∈ data ->
  Normalize.normalize_file p dry_run backup ext s = (Ok (binary, a_skip), s).
Proof.
  intros Hp Henc Hbom Hnul.
  destruct (utf8_encode_no_utf16_marker _ _ Henc) as [Hle Hbe].
  destruct (classify_nul _ Hnul Hbom Hle Hbe) as [_ Hc].
  rewrite normalize_file_run, Hp. cbv zeta. rewrite Hc. reflexivity.
Qed.




(** ** The substitution map *)

Section Substitution.

Implicit Types (t old new k v : text) (d other : dict).

(** *** [replace] against the specification's reading *)

Lemma prefixb_spec old t : prefixb old t = true <-> old `prefix_of` t.
Proof.
  revert t. induction old as [|s old IH]; intros t.
  - split; [intros _; apply prefix_nil | now destruct t].
  - destruct t as [|c t]; cbn [prefixb].
    + split; [discriminate | intros [k' Hk]; discriminate Hk].
    + rewrite andb_true_iff, N.eqb_eq, IH. split.
      * intros [-> H]. now apply prefix_cons.
      * intros [k' [= -> ->]]. split; [reflexivity | now exists k'].
Qed.

Lemma replace_scan_skip old new pre rest :
  replace_scan old new (length pre) (pre ++ rest) = replace_scan old new 0 rest.
Proof.
  induction pre as [|c pre IH]; cbn [length app]; [reflexivity |].
  cbn [replace_scan]. exact IH.
Qed.

(** One pass of the scan up to the leftmost occurrence. *)
Lemma replace_scan_first old new t :
  old <> [] ->
  ((forall i, ~ old `prefix_of` drop i t) /\ replace_scan old new 0 t = t)
  \/ exists pre rest,
       t = pre ++ old ++ rest
       /\ (forall i, (i < length pre)%nat -> ~ old `prefix_of` drop i t)
       /\ replace_scan old new 0 t = pre ++ new ++ replace_scan old new 0 rest.
Proof.
  intros Hne. induction t as [|c r IH].
  - left. split; [| reflexivity].
    intros i [k' Hk]. rewrite drop_nil in Hk.
    destruct old; [contradiction | discriminate].
  - cbn [replace_scan]. destruct (prefixb old (c :: r)) eqn:Hp.
    + right. apply prefixb_spec in Hp as [rest Hrest].
      exists [], rest. split; [exact Hrest |]. split; [cbn; lia |].
      destruct old as [|s old']; [contradiction |].
      injection Hrest as -> ->. cbn [app].
      replace (length (s :: old') - 1)%nat with (length old') by (cbn [length]; lia).
      now rewrite replace_scan_skip.
    + assert (H0 : ~ old `prefix_of` (c :: r)).
      { intros H. apply prefixb_spec in H. congruence. }
      destruct IH as [[Hno Heq] | (pre & rest & -> & Hno & Heq)].
      * left. split; [| now rewrite Heq].
        intros [|i]; [exact H0 | apply Hno].
      * right. exists (c :: pre), rest. split; [reflexivity |].
        split; [| now rewrite Heq].
        intros [|i] Hi; [exact H0 |]. cbn [length] in Hi. apply Hno. lia.
Qed.



(** *** [apply_map]: the keys in order, each on the text the earlier
    ones left *)

Lemma apply_map_nil t : apply_map t [] = t.
Proof. reflexivity. Qed.


(** *** [dict.update] *)



Lemma dict_update_cons k v d other :
  dict_update d ((k, v) :: other) = dict_update (dict_set k v d) other.
Proof. reflexivity. Qed.





Lemma dict_update_defaults : dict_update [] SPANISH_DEFAULTS = SPANISH_DEFAULTS.
Proof. vm_compute. reflexivity. Qed.

(** *** What [main] hands to [apply_map] *)



End Substitution.



(** The score may go up under the map (here from 0 to 1): the mapped text
    is kept all the same, and reported as a change. *)
Example apply_map_ignores_score :
  Fix.transform false (Some [([0x61], [0xC3])]) true [0x61] = ([0xC3], true)
  /\ mojibake_score [0x61] = 0%nat
  /\ mojibake_score [0xC3] = 1%nat.
Proof. vm_compute. repeat split; reflexivity. Qed.

(** ** Worked examples *)

(** EF BB BF 68 69: labelled [utf8-bom], decoded to "hi", normalized to
    68 69. *)
Example bom_hi :
  let data := [xef; xbb; xbf; x68; x69] in
  classify data = utf8_bom
  /\ decode_bytes data utf8_bom = Ok (Some [0x68; 0x69])
  /\ utf8_encode [0x68; 0x69] = Ok [x68; x69].
Proof. vm_compute. repeat split; reflexivity. Qed.

(** "mÃ©todo" scores 1; the round trip gives "método", which scores 0;
    the file is written under [--apply]. *)
Example metodo :
  let garbled := [0x6D; 0xC3; 0xA9; 0x74; 0x6F; 0x64; 0x6F] in
  let s : fs := {[ "m.bas"%string := [x6d; xc3; x83; xc2; xa9; x74; x6f; x64; x6f] ]} in
  mojibake_score garbled = 1%nat
  /\ fix_utf8_in_cp1252 garbled = ([0x6D; 0xE9; 0x74; 0x6F; 0x64; 0x6F], true)
  /\ Fix.normalize_file "m.bas" true false ".bak" true None false s
     = (Ok (utf8, a_write, 1%nat, 0%nat),
        {[ "m.bas"%string := [x6d; xc3; xa9; x74; x6f; x64; x6f] ]}).
Proof. vm_compute. repeat split; reflexivity. Qed.

(** The line-by-line pass: the second line cannot be recoded, the first
    one is repaired. *)
Example repair_by_line :
  fix_utf8_in_cp1252 [0x6D; 0xC3; 0xA9; 0x0A; 0xF1]
  = ([0x6D; 0xE9; 0x0A; 0xF1], true).
Proof. vm_compute. reflexivity. Qed.

(** A file without non-ASCII and zero bytes is [ascii-only] and [ok]
    under every driver. *)
Example ascii_file :
  let s : fs := {[ "m.bas"%string := [x68; x69; x0a] ]} in
  fst (Check.classify_file "m.bas" s) = Ok (ascii_only, 3%nat, false, true)
  /\ Normalize.normalize_file "m.bas" false true ".bak" s = (Ok (ascii_only, a_ok), s)
  /\ Fix.normalize_file "m.bas" true true ".bak" true (Some SPANISH_DEFAULTS) true s
     = (Ok (ascii_only, a_ok, 0%nat, 0%nat), s).
Proof. vm_compute. repeat split; reflexivity. Qed.

(** The file 81 is labelled [ansi-cp1252]; both drivers report
    [decode-error] and leave it alone. *)
Example undefined_cp1252_byte :
  let s : fs := {[ "m.bas"%string := [x81] ]} in
  Normalize.normalize_file "m.bas" false false ".bak" s
  = (Ok (ansi_cp1252, a_decode_error), s)
  /\ Fix.normalize_file "m.bas" true false ".bak" true None false s
     = (Ok (ansi_cp1252, a_decode_error, 0%nat, 0%nat), s).
Proof. vm_compute. repeat split; reflexivity. Qed.

(** A repair that leaves the CP1252 repertoire: the backup is written,
    then encoding raises, and [main] reports [error]. *)
Example encode_error_after_backup :
  let s : fs := {[ "m.bas"%string := [xc3; xa9; xc4; x80; x0a; xe9] ]} in
  let r := Fix.normalize_file "m.bas" true true ".bak" true None false s in
  fst r = Raise UnicodeEncodeError
  /\ snd r !! "m.bas"%string = s !! "m.bas"%string
  /\ snd r !! "m.bas.bak"%string = s !! "m.bas"%string.
Proof. vm_compute. repeat split; reflexivity. Qed.

(** One CP1252 file and one UTF-8 file: the strict checker exits 1. *)
Example mixed_encodings :
  let s : fs := {[ "a.bas"%string := [xe9]; "b.bas"%string := [xc3; xa9] ]} in
  fst (Check.main true ["a.bas"%string; "b.bas"%string] s)
  = Ok ([Check.Row "a.bas" 1 ansi_cp1252 true; Check.Row "b.bas" 2 utf8 true], 1%Z).
Proof. vm_compute. reflexivity. Qed.

(** ** Further properties of the codecs *)

Lemma is_cont_spec (b : byte) :
  is_cont b = true <-> 0x80 <= Byte.to_N b <= 0xBF.
Proof. unfold is_cont. apply in_range_spec. Qed.

(** Every accepted UTF-8 sequence is the encoding of the text it decodes
    to: [text.encode("utf-8")] undoes [data.decode("utf-8")]. *)
Lemma utf8_decode_then_encode (data : bytes) (t : text) :
  utf8_decode data = Ok t -> utf8_encode t = Ok data.
Proof.
  remember (length data) as n eqn:Hn. revert data t Hn.
  induction n as [n IH] using lt_wf_ind. intros data t Hn.
  assert (Hrec : forall (c : char) (hd r : bytes),
            (length r < n)%nat ->
            utf8_encode_char c = Ok hd ->
            rmap (cons c) (utf8_decode r) = Ok t ->
            utf8_encode t = Ok (hd ++ r)).
  { intros c hd r Hlt Hc (t' & Hr & ->)%rmap_Ok. cbn [utf8_encode].
    rewrite Hc. cbn [rbind]. now rewrite (IH _ Hlt r t' eq_refl Hr). }
  destruct data as [|b0 r0]; [now intros [= <-] |].
  cbn [length] in Hn. rewrite utf8_decode_unfold. cbv zeta.
  pose proof (to_N_lt_256 b0) as B0.
  destruct (N.ltb_spec (Byte.to_N b0) 0x80) as [H1|H1].
  { apply (Hrec _ [b0]); [lia |]. unfold utf8_encode_char.
    rewrite ltb_true by exact H1. now rewrite byte_of_to_N. }
  destruct (in_range 0xC2 0xDF (Byte.to_N b0)) eqn:H2.
  { apply in_range_spec in H2. destruct r0 as [|b1 r1]; [discriminate |].
    destruct (is_cont b1) eqn:C1; [| discriminate].
    apply is_cont_spec in C1. cbn [length] in Hn.
    apply (Hrec _ [b0; b1]); [lia |]. unfold utf8_encode_char, cont_bits.
    rewrite ltb_false by nlia. rewrite ltb_true by nlia.
    replace (0xC0 + ((Byte.to_N b0 - 0xC0) * 64 + (Byte.to_N b1 - 0x80)) / 64)
      with (Byte.to_N b0) by nlia.
    replace (0x80 + ((Byte.to_N b0 - 0xC0) * 64 + (Byte.to_N b1 - 0x80)) mod 64)
      with (Byte.to_N b1) by nlia.
    now rewrite !byte_of_to_N. }
  destruct (in_range 0xE0 0xEF (Byte.to_N b0)) eqn:H3.
  { apply in_range_spec in H3. destruct r0 as [|b1 [|b2 r2]]; try discriminate.
    unfold cont_bits.
    set (c := (Byte.to_N b0 - 0xE0) * 4096 + (Byte.to_N b1 - 0x80) * 64
              + (Byte.to_N b2 - 0x80)).
    destruct (is_cont b1) eqn:C1; [| discriminate].
    destruct (is_cont b2) eqn:C2; [| discriminate].
    destruct (N.leb_spec 0x800 c) as [Hlo|Hlo]; [| discriminate].
    destruct (is_surrogate c) eqn:Hs; [discriminate |].
    cbn [andb negb]. apply is_cont_spec in C1, C2. cbn [length] in Hn.
    apply (Hrec _ [b0; b1; b2]); [lia |]. unfold utf8_encode_char.
    assert (Hc : c = (Byte.to_N b0 - 0xE0) * 4096 + (Byte.to_N b1 - 0x80) * 64
                     + (Byte.to_N b2 - 0x80)) by reflexivity.
    clearbody c.
    rewrite !ltb_false by nlia. rewrite ltb_true by nlia. rewrite Hs.
    replace (0xE0 + c / 4096) with (Byte.to_N b0) by nlia.
    replace (0x80 + (c / 64) mod 64) with (Byte.to_N b1) by nlia.
    replace (0x80 + c mod 64) with (Byte.to_N b2) by nlia.
    now rewrite !byte_of_to_N. }
  destruct (in_range 0xF0 0xF4 (Byte.to_N b0)) eqn:H4; [| discriminate].
  apply in_range_spec in H4. destruct r0 as [|b1 [|b2 [|b3 r3]]]; try discriminate.
  unfold cont_bits.
  set (c := (Byte.to_N b0 - 0xF0) * 262144 + (Byte.to_N b1 - 0x80) * 4096
            + (Byte.to_N b2 - 0x80) * 64 + (Byte.to_N b3 - 0x80)).
  destruct (is_cont b1) eqn:C1; [| discriminate].
  destruct (is_cont b2) eqn:C2; [| discriminate].
  destruct (is_cont b3) eqn:C3; [| discriminate].
  destruct (in_range 0x10000 0x10FFFF c) eqn:Hr; [| discriminate].
  cbn [andb]. apply is_cont_spec in C1, C2, C3. apply in_range_spec in Hr.
  cbn [length] in Hn.
  apply (Hrec _ [b0; b1; b2; b3]); [lia |]. unfold utf8_encode_char.
  assert (Hc : c = (Byte.to_N b0 - 0xF0) * 262144 + (Byte.to_N b1 - 0x80) * 4096
                   + (Byte.to_N b2 - 0x80) * 64 + (Byte.to_N b3 - 0x80)) by reflexivity.
  clearbody c.
  rewrite !ltb_false by nlia. rewrite leb_true by nlia.
  replace (0xF0 + c / 262144) with (Byte.to_N b0) by nlia.
  replace (0x80 + (c / 4096) mod 64) with (Byte.to_N b1) by nlia.
  replace (0x80 + (c / 64) mod 64) with (Byte.to_N b2) by nlia.
  replace (0x80 + c mod 64) with (Byte.to_N b3) by nlia.
  now rewrite !byte_of_to_N.
Qed.

(** ** What each label stands for *)

Lemma startswith_non_ascii (data pre : bytes) (b : byte) :
  startswith data (b :: pre) = true -> 0x80 <= Byte.to_N b -> non_ascii data = true.
Proof.
  destruct data as [|d data]; cbn [startswith]; [discriminate |].
  destruct (decide (b = d)) as [<-|]; [| discriminate].
  intros _ Hb. cbn [non_ascii existsb]. now rewrite leb_true.
Qed.

Lemma utf8_decode_cases (data : bytes) :
  (exists t, utf8_decode data = Ok t) \/ utf8_decode data = Raise UnicodeDecodeError.
Proof.
  destruct (utf8_decode data) as [t|e] eqn:E; [left; eauto | right].
  now rewrite (utf8_decode_raises _ _ E).
Qed.

(** What each label implies about the bytes. *)
Lemma classify_label_meaning (data : bytes) :
  match classify data with
  | utf8_bom =>
      startswith data BOM_UTF8 = true /\ exists t, utf8_decode (drop 3 data) = Ok t
  | utf8_bom_invalid =>
      startswith data BOM_UTF8 = true
      /\ utf8_decode (drop 3 data) = Raise UnicodeDecodeError
  | utf16_le => startswith data [xff; xfe] = true
  | utf16_be => startswith data [xfe; xff] = true
  | binary =>
      (x00 ∈ data) /\ startswith data BOM_UTF8 = false
      /\ startswith data [xff; xfe] = false /\ startswith data [xfe; xff] = false
  | ascii_only => (x00 ∉ data) /\ non_ascii data = false
  | utf8 =>
      (x00 ∉ data) /\ non_ascii data = true /\ exists t, utf8_decode data = Ok t
  | ansi_cp1252 =>
      (x00 ∉ data) /\ non_ascii data = true
      /\ utf8_decode data = Raise UnicodeDecodeError
  | unknown => False
  end.
Proof.
  unfold classify, _classify_bytes. change [xef; xbb; xbf] with BOM_UTF8.
  destruct (startswith data BOM_UTF8) eqn:H8.
  { destruct (utf8_decode_cases (drop 3 data)) as [[t Ht] | Hr].
    - rewrite Ht. cbv beta iota.
      rewrite bool_decide_eq_false_2 by (intros [?|?]; discriminate). cbn [andb]. eauto.
    - rewrite Hr. cbv beta iota.
      rewrite bool_decide_eq_false_2 by (intros [?|?]; discriminate). cbn [andb]. eauto. }
  destruct (startswith data [xff; xfe]) eqn:Hle.
  { cbv beta iota. now rewrite bool_decide_eq_false_2 by (intros [?|?]; discriminate). }
  destruct (startswith data [xfe; xff]) eqn:Hbe.
  { cbv beta iota. now rewrite bool_decide_eq_false_2 by (intros [?|?]; discriminate). }
  destruct (bool_decide (x00 ∈ data)) eqn:Hnul.
  { apply bool_decide_eq_true_1 in Hnul. cbv beta iota.
    rewrite bool_decide_eq_false_2 by (intros [?|?]; discriminate). cbn [andb]. eauto. }
  apply bool_decide_eq_false_1 in Hnul.
  destruct (utf8_decode_cases data) as [[t Ht] | Hr].
  - rewrite Ht. cbv beta iota. rewrite bool_decide_eq_true_2 by (left; reflexivity).
    destruct (non_ascii data) eqn:Hna; cbn; eauto.
  - rewrite Hr. cbv beta iota. rewrite bool_decide_eq_true_2 by (right; reflexivity).
    destruct (non_ascii data) eqn:Hna; cbn; eauto.
Qed.

Lemma classify_ascii_only_spec (data : bytes) :
  classify data = ascii_only <-> (x00 ∉ data) /\ non_ascii data = false.
Proof.
  split.
  - intros H. pose proof (classify_label_meaning data) as Hs. now rewrite H in Hs.
  - intros [Hnul Hna]. pose proof (classify_label_meaning data) as Hs.
    destruct (classify data); try reflexivity; exfalso.
    + destruct Hs as (_ & Hs & _). congruence.
    + destruct Hs as [Hs _]. apply startswith_non_ascii in Hs; [congruence | vm_compute; discriminate].
    + destruct Hs as [Hs _]. apply startswith_non_ascii in Hs; [congruence | vm_compute; discriminate].
    + apply startswith_non_ascii in Hs; [congruence | vm_compute; discriminate].
    + apply startswith_non_ascii in Hs; [congruence | vm_compute; discriminate].
    + destruct Hs as (_ & Hs & _). congruence.
    + destruct Hs as [Hs _]. contradiction.
    + exact Hs.
Qed.

(** Property X1. The label [classify] gives tells what the bytes are:
    [utf8-bom] and [utf8-bom-invalid] mean the UTF-8 marker followed by
    valid, respectively invalid, UTF-8; the UTF-16 labels mean their
    marker; [binary] means a zero byte and no marker; [ascii-only] means
    neither a zero byte nor a byte above 7F; [utf8] and [ansi-cp1252] mean
    no zero byte, some byte above 7F, and valid, respectively invalid,
    UTF-8. [classify] never answers anything else. *)
Theorem classify_sound (data : bytes) :
  match classify data with
  | utf8_bom =>
      startswith data BOM_UTF8 = true /\ exists t, utf8_decode (drop 3 data) = Ok t
  | utf8_bom_invalid =>
      startswith data BOM_UTF8 = true
      /\ utf8_decode (drop 3 data) = Raise UnicodeDecodeError
  | utf16_le => startswith data [xff; xfe] = true
  | utf16_be => startswith data [xfe; xff] = true
  | binary =>
      (x00 ∈ data) /\ startswith data BOM_UTF8 = false
      /\ startswith data [xff; xfe] = false /\ startswith data [xfe; xff] = false
  | ascii_only => (x00 ∉ data) /\ non_ascii data = false
  | utf8 =>
      (x00 ∉ data) /\ non_ascii data = true /\ exists t, utf8_decode data = Ok t
  | ansi_cp1252 =>
      (x00 ∉ data) /\ non_ascii data = true
      /\ utf8_decode data = Raise UnicodeDecodeError
  | unknown => False
  end.
Proof. exact (classify_label_meaning data). Qed.

(** Property X2. A file is [ascii-only] exactly when it holds neither a
    zero byte nor a byte above 7F. *)
Theorem classify_ascii_only_iff (data : bytes) :
  classify data = ascii_only <-> (x00 ∉ data) /\ non_ascii data = false.
Proof. exact (classify_ascii_only_spec data). Qed.

(** Property X3. The markers come first: a file that starts with FF FE is
    [utf16-le], and one that starts with FE FF is [utf16-be], whatever
    follows, zero bytes included; the payload is the whole file. *)
Theorem classify_utf16_marker_first (rest : bytes) :
  _classify_bytes (xff :: xfe :: rest) = (utf16_le, xff :: xfe :: rest)
  /\ classify (xff :: xfe :: rest) = utf16_le
  /\ _classify_bytes (xfe :: xff :: rest) = (utf16_be, xfe :: xff :: rest)
  /\ classify (xfe :: xff :: rest) = utf16_be.
Proof.
  unfold classify, _classify_bytes. cbn [startswith].
  repeat match goal with
  | |- context [decide (?a = ?b)] => destruct (decide (a = b)); try discriminate
  end.
  all: try congruence.
  destruct rest; repeat split; reflexivity.
Qed.

(** Property X4. On every file whose payload holds a byte above 7F the
    checker's [classify_file] gives the label [classify] gives in the two
    other scripts, with the size of the file and the non-ASCII flag set;
    it reads the file and leaves the store alone. *)
Theorem check_classify_file_agrees (p : path) (s : fs) (data : bytes) :
  s !! p = Some data ->
  non_ascii (snd (_classify_bytes data)) = true ->
  Check.classify_file p s = (Ok (classify data, length data, true, true), s).
Proof.
  intros Hp Hna. rewrite (check_classify_file p s data Hp), Hna.
  unfold classify. destruct (_classify_bytes data) as [lbl payload].
  cbn [fst snd] in *. rewrite Hna. cbn [negb]. now rewrite andb_false_r.
Qed.

Lemma check_classify_file_agrees_witness :
  let s : fs := {[ "m.bas"%string := [xef; xbb; xbf; xc3; xa9] ]} in
  Check.classify_file "m.bas" s = (Ok (utf8_bom, 5%nat, true, true), s).
Proof.
  intros s.
  apply (check_classify_file_agrees "m.bas"%string s [xef; xbb; xbf; xc3; xa9]);
    vm_compute; reflexivity.
Defined.

(** ** Decoded text *)

Lemma utf8_encode_char_scalar (c : char) :
  scalar c <-> exists bs, utf8_encode_char c = Ok bs.
Proof.
  unfold scalar, utf8_encode_char. split.
  - intros [Hmax Hs]. rewrite Hs, (leb_true _ _ Hmax).
    destruct (c <? 0x80), (c <? 0x800), (c <? 0x10000); eauto.
  - intros [bs H].
    destruct (N.ltb_spec c 0x80); [split; [lia | apply in_range_false; lia] |].
    destruct (N.ltb_spec c 0x800); [split; [lia | apply in_range_false; lia] |].
    destruct (N.ltb_spec c 0x10000).
    { destruct (is_surrogate c); [discriminate | split; [lia | reflexivity]]. }
    destruct (N.leb_spec c 0x10FFFF); [| discriminate].
    split; [lia | apply in_range_false; lia].
Qed.

Lemma utf8_encode_scalar (t : text) :
  Forall scalar t <-> exists bs, utf8_encode t = Ok bs.
Proof.
  induction t as [|c t IH]; [split; [eauto | constructor] |]. split.
  - intros [Hc Ht]%Forall_cons. apply utf8_encode_char_scalar in Hc as [b1 Hb1].
    apply IH in Ht as [rest Hrest]. cbn [utf8_encode]. rewrite Hb1, Hrest. cbn. eauto.
  - intros [bs (b1 & rest & Hc & Ht & _)%utf8_encode_cons_Ok].
    constructor; [apply utf8_encode_char_scalar | apply IH]; eauto.
Qed.

Lemma cp1252_decode_byte_scalar (b : byte) (c : char) :
  cp1252_decode_byte b = Some c -> scalar c.
Proof.
  intros H. destruct b; vm_compute in H; try discriminate H;
    injection H as <-; split; vm_compute; congruence.
Qed.

Lemma cp1252_decode_scalar (data : bytes) (t : text) :
  cp1252_decode data = Ok t -> Forall scalar t.
Proof.
  revert t. induction data as [|b r IH]; cbn [cp1252_decode]; intros t.
  - intros [= <-]. constructor.
  - destruct (cp1252_decode_byte b) as [c|] eqn:Hc; [| discriminate].
    intros (t' & Ht' & ->)%rmap_Ok.
    constructor; [exact (cp1252_decode_byte_scalar _ _ Hc) | eauto].
Qed.

Lemma ascii_decode_spec (data : bytes) (t : text) :
  ascii_decode data = Ok t -> t = map Byte.to_N data /\ non_ascii data = false.
Proof.
  revert t. induction data as [|b r IH]; cbn [ascii_decode]; intros t.
  - intros [= <-]. now split.
  - destruct (N.ltb_spec (Byte.to_N b) 0x80) as [Hb|]; [| discriminate].
    intros (t' & Ht' & ->)%rmap_Ok. destruct (IH _ Ht') as [-> Hna].
    split; [reflexivity |]. cbn [non_ascii existsb]. fold (non_ascii r).
    rewrite Hna. apply orb_false_iff. split; [now apply N.leb_gt | reflexivity].
Qed.

Lemma utf16_units_bound (little : bool) (data : bytes) (us : list N) :
  utf16_units little data = Ok us -> Forall (fun u => u < 0x10000) us.
Proof.
  remember (length data) as n eqn:Hn. revert data us Hn.
  induction n as [n IH] using lt_wf_ind. intros data us Hn.
  destruct data as [|a [|b r]]; cbn [utf16_units].
  - intros [= <-]. constructor.
  - discriminate.
  - intros (us' & Hus' & ->)%rmap_Ok. constructor.
    + pose proof (to_N_lt_256 a). pose proof (to_N_lt_256 b). destruct little; lia.
    + apply (IH (length r)) with (data := r); [subst n; cbn; lia | reflexivity | exact Hus'].
Qed.

Lemma utf16_combine_scalar (us : list N) (t : text) :
  Forall (fun u => u < 0x10000) us -> utf16_combine us = Ok t -> Forall scalar t.
Proof.
  remember (length us) as n eqn:Hn. revert us t Hn.
  induction n as [n IH] using lt_wf_ind. intros us t Hn Hb.
  destruct us as [|u r]; cbn [utf16_combine].
  - intros [= <-]. constructor.
  - apply Forall_cons in Hb as [Hu Hr].
    destruct (in_range 0xD800 0xDBFF u) eqn:Hhi.
    + apply in_range_spec in Hhi. destruct r as [|v r']; [discriminate |].
      apply Forall_cons in Hr as [Hv Hr'].
      destruct (in_range 0xDC00 0xDFFF v) eqn:Hlo; [| discriminate].
      apply in_range_spec in Hlo.
      intros (t' & Ht' & ->)%rmap_Ok. constructor.
      * split; [lia | apply in_range_false; lia].
      * apply (IH (length r')) with (us := r'); [subst n; cbn; lia | reflexivity | assumption..].
    + destruct (in_range 0xDC00 0xDFFF u) eqn:Hlo; [discriminate |].
      intros (t' & Ht' & ->)%rmap_Ok. constructor.
      * split; [lia |]. unfold is_surrogate.
        apply andb_false_iff in Hhi. apply andb_false_iff in Hlo.
        apply in_range_false.
        destruct Hhi as [Hhi|Hhi], Hlo as [Hlo|Hlo];
          apply N.leb_gt in Hhi; apply N.leb_gt in Hlo; lia.
      * apply (IH (length r)) with (us := r); [subst n; cbn; lia | reflexivity | assumption..].
Qed.

Lemma utf16_decode_scalar (data : bytes) (t : text) :
  utf16_decode data = Ok t -> Forall scalar t.
Proof.
  unfold utf16_decode.
  destruct (startswith data [xff; xfe]);
    [| destruct (startswith data [xfe; xff])];
    intros (us & Hus & Ht)%rbind_Ok;
    exact (utf16_combine_scalar _ _ (utf16_units_bound _ _ _ Hus) Ht).
Qed.

Lemma decode_bytes_scalar (data : bytes) (lbl : label) (t : text) :
  decode_bytes data lbl = Ok (Some t) ->
  Forall scalar t /\ exists new_bytes, utf8_encode t = Ok new_bytes.
Proof.
  intros H. assert (Hs : Forall scalar t).
  { destruct lbl; cbn [decode_bytes] in H; try discriminate H;
      apply rmap_Ok in H as (t' & Ht' & [= ->]).
    - apply ascii_decode_spec in Ht' as [-> Hna].
      destruct (ascii_payload_decode _ Hna) as [H8 _].
      apply utf8_encode_scalar. eexists. exact (utf8_decode_then_encode _ _ H8).
    - apply utf8_encode_scalar. eexists. exact (utf8_decode_then_encode _ _ Ht').
    - apply utf8_encode_scalar. unfold utf8_sig_decode in Ht'.
      destruct (startswith data BOM_UTF8); eexists;
        exact (utf8_decode_then_encode _ _ Ht').
    - exact (utf16_decode_scalar _ _ Ht').
    - exact (utf16_decode_scalar _ _ Ht').
    - exact (cp1252_decode_scalar _ _ Ht'). }
  split; [exact Hs | now apply utf8_encode_scalar].
Qed.

(** Property X5. Whatever [decode_bytes] returns as text consists of
    Unicode scalar values only, so encoding it as UTF-8, as the
    normalizer does next, cannot raise. *)
Theorem decoded_text_encodes (data : bytes) (lbl : label) (t : text) :
  decode_bytes data lbl = Ok (Some t) ->
  Forall scalar t /\ exists new_bytes, utf8_encode t = Ok new_bytes.
Proof. exact (decode_bytes_scalar data lbl t). Qed.

Lemma decoded_text_encodes_witness :
  Forall scalar [0x20AC; 0xE9]
  /\ exists new_bytes, utf8_encode [0x20AC; 0xE9] = Ok new_bytes.
Proof.
  apply (decoded_text_encodes [x80; xe9] ansi_cp1252 [0x20AC; 0xE9]).
  vm_compute. reflexivity.
Defined.

Lemma ascii_round_trip (data : bytes) (t : text) :
  ascii_decode data = Ok t -> ascii_encode t = Ok data.
Proof.
  revert t. induction data as [|b r IH]; cbn [ascii_decode]; intros t.
  - now intros [= <-].
  - destruct (N.ltb_spec (Byte.to_N b) 0x80) as [Hb|]; [| discriminate].
    intros (t' & Ht' & ->)%rmap_Ok. cbn [ascii_encode].
    rewrite (ltb_true _ _ Hb), (IH _ Ht'), byte_of_to_N. reflexivity.
Qed.

Lemma utf8_sig_decode_marker (rest : bytes) :
  utf8_sig_decode (BOM_UTF8 ++ rest) = utf8_decode rest.
Proof. unfold utf8_sig_decode. now rewrite startswith_app. Qed.

(** Property X6. [encode_text] undoes [decode_bytes] on the three labels
    it writes in their own encoding ([utf8], [ascii-only],
    [ansi-cp1252]): the bytes come back exactly. Under [utf8-bom] the file
    comes back without its marker. *)
Theorem encode_text_after_decode_bytes (data : bytes) (lbl : label) (t : text) :
  decode_bytes data lbl = Ok (Some t) ->
  (lbl = utf8 \/ lbl = ascii_only \/ lbl = ansi_cp1252 -> encode_text t lbl = Ok data)
  /\ (lbl = utf8_bom -> startswith data BOM_UTF8 = true ->
      encode_text t lbl = Ok (drop 3 data)).
Proof.
  intros H. split.
  - intros [-> | [-> | ->]]; cbn [decode_bytes encode_text] in *;
      apply rmap_Ok in H as (t' & Ht' & [= ->]).
    + now apply utf8_decode_then_encode.
    + now apply ascii_round_trip.
    + now apply cp1252_round_trip.
  - intros -> Hbom. cbn [decode_bytes encode_text] in *.
    apply rmap_Ok in H as (t' & Ht' & [= ->]).
    unfold utf8_sig_decode in Ht'. rewrite Hbom in Ht'.
    now apply utf8_decode_then_encode.
Qed.

Lemma encode_text_after_decode_bytes_witness :
  encode_text [0x68; 0xE9] utf8 = Ok [x68; xc3; xa9]
  /\ encode_text [0x68; 0xE9] utf8_bom = Ok (drop 3 [xef; xbb; xbf; x68; xc3; xa9]).
Proof.
  split.
  - apply (encode_text_after_decode_bytes [x68; xc3; xa9] utf8 [0x68; 0xE9]);
      [vm_compute; reflexivity | now left].
  - apply (encode_text_after_decode_bytes [xef; xbb; xbf; x68; xc3; xa9] utf8_bom
             [0x68; 0xE9]); vm_compute; reflexivity.
Defined.

(** ** Further properties of the drivers *)

Lemma ascii_decode_raises (data : bytes) (e : exn) :
  ascii_decode data = Raise e -> e = UnicodeDecodeError.
Proof.
  induction data as [|b r IH]; cbn [ascii_decode]; [discriminate |].
  destruct (Byte.to_N b <? 0x80); [| now intros [= <-]].
  destruct (ascii_decode r) as [t|e']; cbn; [discriminate |].
  intros [= <-]. now apply IH.
Qed.

Lemma cp1252_decode_raises (data : bytes) (e : exn) :
  cp1252_decode data = Raise e -> e = UnicodeDecodeError.
Proof.
  induction data as [|b r IH]; cbn [cp1252_decode]; [discriminate |].
  destruct (cp1252_decode_byte b); [| now intros [= <-]].
  destruct (cp1252_decode r) as [t|e']; cbn; [discriminate |].
  intros [= <-]. now apply IH.
Qed.

Lemma utf16_units_raises (little : bool) (data : bytes) (e : exn) :
  utf16_units little data = Raise e -> e = UnicodeDecodeError.
Proof.
  remember (length data) as n eqn:Hn. revert data Hn.
  induction n as [n IH] using lt_wf_ind. intros data Hn.
  destruct data as [|a [|b r]]; cbn [utf16_units]; [discriminate | now intros [= <-] |].
  destruct (utf16_units little r) as [us|e'] eqn:E; cbn; [discriminate |].
  intros [= <-]. apply (IH (length r)) with (data := r); [subst n; cbn; lia | reflexivity | exact E].
Qed.

Lemma utf16_combine_raises (us : list N) (e : exn) :
  utf16_combine us = Raise e -> e = UnicodeDecodeError.
Proof.
  remember (length us) as n eqn:Hn. revert us Hn.
  induction n as [n IH] using lt_wf_ind. intros us Hn.
  destruct us as [|u r]; cbn [utf16_combine]; [discriminate |].
  destruct (in_range 0xD800 0xDBFF u).
  - destruct r as [|v r']; [now intros [= <-] |].
    destruct (in_range 0xDC00 0xDFFF v); [| now intros [= <-]].
    destruct (utf16_combine r') as [t|e'] eqn:E; cbn; [discriminate |].
    intros [= <-]. apply (IH (length r')) with (us := r'); [subst n; cbn; lia | reflexivity | exact E].
  - destruct (in_range 0xDC00 0xDFFF u); [now intros [= <-] |].
    destruct (utf16_combine r) as [t|e'] eqn:E; cbn; [discriminate |].
    intros [= <-]. apply (IH (length r)) with (us := r); [subst n; cbn; lia | reflexivity | exact E].
Qed.

Lemma utf16_decode_raises (data : bytes) (e : exn) :
  utf16_decode data = Raise e -> e = UnicodeDecodeError.
Proof.
  unfold utf16_decode.
  destruct (startswith data [xff; xfe]); [| destruct (startswith data [xfe; xff])];
    (match goal with
     | |- rbind ?u _ = _ -> _ => destruct u as [us|e'] eqn:E; cbn [rbind]
     end;
     [apply utf16_combine_raises | intros [= <-]; exact (utf16_units_raises _ _ _ E)]).
Qed.

(** The one exception [decode_bytes] raises is the one the drivers catch. *)
Lemma decode_bytes_raises (data : bytes) (lbl : label) (e : exn) :
  decode_bytes data lbl = Raise e -> e = UnicodeDecodeError.
Proof.
  destruct lbl; cbn [decode_bytes]; try discriminate;
    match goal with
    | |- rmap Some ?d = _ -> _ => destruct d as [t|e'] eqn:E; cbn; [discriminate |]
    end; intros [= <-].
  - exact (ascii_decode_raises _ _ E).
  - exact (utf8_decode_raises _ _ E).
  - unfold utf8_sig_decode in E. destruct (startswith data BOM_UTF8);
      exact (utf8_decode_raises _ _ E).
  - exact (utf16_decode_raises _ _ E).
  - exact (utf16_decode_raises _ _ E).
  - exact (cp1252_decode_raises _ _ E).
Qed.

(** Files labelled [utf8], [utf8-bom] or [ascii-only] always decode. *)
Lemma utf8_family_decodes (data : bytes) :
  classify data = utf8 \/ classify data = utf8_bom \/ classify data = ascii_only ->
  exists t, decode_bytes data (classify data) = Ok (Some t).
Proof.
  intros H. pose proof (classify_label_meaning data) as Hs.
  destruct H as [H | [H | H]]; rewrite H in Hs |- *; cbn [decode_bytes].
  - destruct Hs as (_ & _ & t & Ht). rewrite Ht. cbn. eauto.
  - destruct Hs as (Hbom & t & Ht). unfold utf8_sig_decode. rewrite Hbom, Ht. cbn. eauto.
  - destruct Hs as (_ & Hna). destruct (ascii_payload_decode _ Hna) as [_ Ha].
    rewrite Ha. cbn. eauto.
Qed.



(** Property X8. Both drivers report [decode-error] for no label but
    [ansi-cp1252], [utf16-le] and [utf16-be]; for [ansi-cp1252] the file
    then holds one of the five bytes CP1252 leaves undefined. The store is
    as it was. *)
Theorem decode_error_labels :
  (forall (p : path) dry_run backup ext (s s' : fs) lbl,
      Normalize.normalize_file p dry_run backup ext s = (Ok (lbl, a_decode_error), s') ->
      s' = s
      /\ (lbl = utf16_le \/ lbl = utf16_be
          \/ lbl = ansi_cp1252
             /\ exists data, s !! p = Some data /\ forallb cp1252_defined data = false))
  /\ (forall (p : path) apply backup ext fix_utf8 mapping flag (s s' : fs) lbl before after,
      Fix.normalize_file p apply backup ext fix_utf8 mapping flag s
      = (Ok (lbl, a_decode_error, before, after), s') ->
      s' = s
      /\ (lbl = utf16_le \/ lbl = utf16_be
          \/ lbl = ansi_cp1252
             /\ exists data, s !! p = Some data /\ forallb cp1252_defined data = false)).
Proof.
  assert (Hkey : forall data,
            bool_decide (classify data = binary \/ classify data = utf8_bom_invalid) = false ->
            (exists e, decode_bytes data (classify data) = Raise e) ->
            classify data = utf16_le \/ classify data = utf16_be
            \/ classify data = ansi_cp1252 /\ forallb cp1252_defined data = false).
  { intros data Hsk [e He]. apply bool_decide_eq_false_1 in Hsk.
    pose proof (classify_label_meaning data) as Hs.
    destruct (classify data) eqn:Hc; try (now left); try (now right; left).
    - destruct (utf8_family_decodes data) as [t Ht]; [rewrite Hc; auto |]. rewrite Hc in Ht. congruence.
    - destruct (utf8_family_decodes data) as [t Ht]; [rewrite Hc; auto |]. rewrite Hc in Ht. congruence.
    - destruct (utf8_family_decodes data) as [t Ht]; [rewrite Hc; auto |]. rewrite Hc in Ht. congruence.
    - right; right. split; [reflexivity |].
      destruct (forallb cp1252_defined data) eqn:Hd; [| reflexivity].
      destruct (cp1252_decode_total _ Hd) as [t Ht]. cbn [decode_bytes] in He.
      rewrite Ht in He. discriminate He. }
  split.
  - intros p dr bk ext s s' lbl H. rewrite normalize_file_run in H.
    destruct (s !! p) as [data|] eqn:Hp; [| discriminate H]. cbv zeta in H.
    destruct (bool_decide _) eqn:Hsk; [discriminate H |].
    destruct (decode_bytes data (classify data)) as [[t|]|e] eqn:Hd.
    + break_hyp H; discriminate H.
    + discriminate H.
    + rewrite (decode_bytes_raises _ _ _ Hd) in H. injection H as <- <-.
      split; [reflexivity |].
      destruct (Hkey data Hsk (ex_intro _ e Hd)) as [? | [? | [? ?]]]; eauto 6.
  - intros p ap bk ext fx m fl s s' lbl before after H.
    rewrite fix_normalize_file_run in H.
    destruct (s !! p) as [data|] eqn:Hp; [| discriminate H]. cbv zeta in H.
    destruct (bool_decide _) eqn:Hsk; [discriminate H |].
    destruct (decode_bytes data (classify data)) as [[t|]|e] eqn:Hd.
    + break_hyp H; discriminate H.
    + discriminate H.
    + rewrite (decode_bytes_raises _ _ _ Hd) in H. injection H as <- _ _ <-.
      split; [reflexivity |].
      destruct (Hkey data Hsk (ex_intro _ e Hd)) as [? | [? | [? ?]]]; eauto 6.
Qed.

Lemma decode_error_labels_witness :
  let s : fs := {[ "m.bas"%string := [x41; x9d] ]} in
  s = s
  /\ (ansi_cp1252 = utf16_le \/ ansi_cp1252 = utf16_be
      \/ ansi_cp1252 = ansi_cp1252
         /\ exists data, s !! "m.bas"%string = Some data
                         /\ forallb cp1252_defined data = false).
Proof.
  intros s.
  apply (proj1 decode_error_labels "m.bas"%string false false ".bak"%string s s ansi_cp1252).
  vm_compute. reflexivity.
Defined.

(** *** What the normalizer writes *)

(** Property X9. The normalizer leaves a file labelled [utf8] or
    [ascii-only] alone, under any flags: it reports [ok] and the store is
    as it was. *)
Theorem normalize_leaves_utf8_alone (p : path) (dry_run backup : bool)
    (ext : string) (s : fs) (data : bytes) :
  s !! p = Some data ->
  classify data = utf8 \/ classify data = ascii_only ->
  Normalize.normalize_file p dry_run backup ext s = (Ok (classify data, a_ok), s).
Proof.
  intros Hp Hl. rewrite normalize_file_run, Hp. cbv zeta.
  pose proof (classify_label_meaning data) as Hs.
  assert (H8 : decode_bytes data (classify data) = Ok (Some (map Byte.to_N data))
               /\ utf8_decode data = Ok (map Byte.to_N data)
               \/ exists t, decode_bytes data (classify data) = Ok (Some t)
                            /\ utf8_decode data = Ok t).
  { destruct Hl as [Hl | Hl]; rewrite Hl in Hs |- *; cbn [decode_bytes].
    - right. destruct Hs as (_ & _ & t & Ht). exists t. rewrite Ht. now split.
    - left. destruct Hs as (_ & Hna).
      destruct (ascii_payload_decode _ Hna) as [H8 Ha]. rewrite Ha. now split. }
  assert (Hd : exists t, decode_bytes data (classify data) = Ok (Some t)
                         /\ utf8_encode t = Ok data).
  { destruct H8 as [[Hd H8] | (t & Hd & H8)]; eexists; (split; [exact Hd |]);
      now apply utf8_decode_then_encode. }
  destruct Hd as (t & Hd & Henc).
  rewrite (decoded_label_not_skipped _ _ _ Hd), Hd, Henc.
  now rewrite (bool_decide_eq_true_2 (data = data) eq_refl).
Qed.

Lemma normalize_leaves_utf8_alone_witness :
  let s : fs := {[ "m.bas"%string := [x68; xc3; xa9] ]} in
  Normalize.normalize_file "m.bas" false true ".bak" s = (Ok (classify [x68; xc3; xa9], a_ok), s).
Proof.
  intros s.
  apply (normalize_leaves_utf8_alone "m.bas"%string false true ".bak"%string s [x68; xc3; xa9]).
  - vm_compute. reflexivity.
  - left. vm_compute. reflexivity.
Defined.

(** Property X10. On a file made of the UTF-8 marker followed by valid
    UTF-8 the normalizer, run without [--dry-run] and without backup,
    writes back exactly the bytes after the marker. *)
Theorem normalize_strips_marker (p : path) (ext : string) (s : fs)
    (rest : bytes) (t : text) :
  s !! p = Some (BOM_UTF8 ++ rest) ->
  utf8_decode rest = Ok t ->
  Normalize.normalize_file p false false ext s
  = (Ok (utf8_bom, a_write), <[p := rest]> s).
Proof.
  intros Hp Hrest. rewrite normalize_file_run, Hp. cbv zeta.
  destruct (classify_bom rest) as [_ Hc]. rewrite Hc, Hrest.
  rewrite bool_decide_eq_false_2 by (intros [?|?]; discriminate).
  cbn [decode_bytes]. rewrite utf8_sig_decode_marker, Hrest. cbn [rmap rbind].
  rewrite (utf8_decode_then_encode _ _ Hrest).
  rewrite bool_decide_eq_false_2; [reflexivity |].
  intros H. apply (f_equal length) in H. rewrite length_app in H. cbn in H. lia.
Qed.

Lemma normalize_strips_marker_witness :
  let s : fs := {[ "m.bas"%string := [xef; xbb; xbf; x68; xc3; xa9] ]} in
  Normalize.normalize_file "m.bas" false false ".bak" s
  = (Ok (utf8_bom, a_write), <["m.bas"%string := [x68; xc3; xa9]]> s).
Proof.
  intros s.
  apply (normalize_strips_marker "m.bas"%string ".bak"%string s [x68; xc3; xa9] [0x68; 0xE9]);
    vm_compute; reflexivity.
Defined.

(** Property X11. When the normalizer writes a file, the new contents
    are the UTF-8 encoding of the text the old contents decoded to under
    their label: decoding the new file as UTF-8 gives that same text, and
    the new bytes differ from the old ones. *)
Theorem normalize_write_keeps_text (p : path) (backup : bool) (ext : string)
    (s s' : fs) (lbl : label) :
  Normalize.normalize_file p false backup ext s = (Ok (lbl, a_write), s') ->
  exists (data new_bytes : bytes) (t : text),
    s !! p = Some data
    /\ lbl = classify data
    /\ decode_bytes data lbl = Ok (Some t)
    /\ s' !! p = Some new_bytes
    /\ new_bytes <> data
    /\ utf8_encode t = Ok new_bytes
    /\ utf8_decode new_bytes = Ok t.
Proof.
  intros H. assert (Hl : exists data, s !! p = Some data /\ lbl = classify data).
  { rewrite normalize_file_run in H.
    destruct (s !! p) as [data|]; [| discriminate H]. exists data. split; [reflexivity |].
    break_hyp H; now injection H as <- _. }
  destruct Hl as (data0 & Hp0 & Hl).
  destruct (normalize_write_inv _ _ _ _ _ _ H) as (data & nb & t & Hp & Hd & He & Hne & Hp').
  exists data, nb, t. rewrite Hp in Hp0. injection Hp0 as <-.
  repeat split; try assumption. now apply utf8_round_trip.
Qed.

Lemma normalize_write_keeps_text_witness :
  exists (data new_bytes : bytes) (t : text),
    ({[ "m.bas"%string := [x80; xe9] ]} : fs) !! "m.bas"%string = Some data
    /\ ansi_cp1252 = classify data
    /\ decode_bytes data ansi_cp1252 = Ok (Some t)
    /\ ({[ "m.bas"%string := [xe2; x82; xac; xc3; xa9] ]} : fs) !! "m.bas"%string
       = Some new_bytes
    /\ new_bytes <> data
    /\ utf8_encode t = Ok new_bytes
    /\ utf8_decode new_bytes = Ok t.
Proof.
  apply (normalize_write_keeps_text "m.bas"%string false ".bak"%string).
  rewrite normalize_file_run. vm_compute. reflexivity.
Defined.

(** Property X24. After the normalizer has written a file, a second run
    under any flags writes nothing as long as the bytes written do not
    start with EF BB BF: it reports [ok], or [skip] with the label [binary]
    when those bytes hold a zero byte. *)
Theorem normalize_second_run_never_writes (p : path) (backup : bool) (ext : string)
    (s s' : fs) (lbl : label) (data' : bytes) :
  Normalize.normalize_file p false backup ext s = (Ok (lbl, a_write), s') ->
  s' !! p = Some data' ->
  startswith data' BOM_UTF8 = false ->
  forall (dry_run' backup' : bool) (ext' : string),
    Normalize.normalize_file p dry_run' backup' ext' s'
    = (Ok (if bool_decide (x00 ∈ data') then (binary, a_skip)
           else (if non_ascii data' then utf8 else ascii_only, a_ok)), s').
Proof.
  intros Hrun Hp' Hbom dry_run' backup' ext'.
  destruct (normalize_write_inv _ _ _ _ _ _ Hrun)
    as (data & new_bytes & t & _ & _ & Henc & _ & Hnew).
  rewrite Hp' in Hnew. injection Hnew as <-.
  destruct (bool_decide (x00 ∈ data')) eqn:Hnul.
  - apply bool_decide_eq_true_1 in Hnul. now apply (normalize_encoded_file_nul p s' t data').
  - apply bool_decide_eq_false_1 in Hnul. now apply (normalize_encoded_file_ok p s' t data').
Qed.

Lemma normalize_second_run_never_writes_witness :
  let s : fs := {[ "m.bas"%string := [xff; xfe; x41; x00; x00; x00] ]} in
  let s' : fs := {[ "m.bas"%string := [x41; x00] ]} in
  Normalize.normalize_file "m.bas" false false ".bak" s = (Ok (utf16_le, a_write), s')
  /\ Normalize.normalize_file "m.bas" false false ".bak" s' = (Ok (binary, a_skip), s').
Proof.
  intros s s'.
  assert (Hrun : Normalize.normalize_file "m.bas" false false ".bak" s
                 = (Ok (utf16_le, a_write), s')).
  { rewrite normalize_file_run. vm_compute. reflexivity. }
  split; [exact Hrun |].
  apply (normalize_second_run_never_writes "m.bas"%string false ".bak"%string s s'
           utf16_le [x41; x00] Hrun); vm_compute; reflexivity.
Defined.

(** *** What a run may touch *)

(** Files that exist before a per-file run exist after it, and every
    existing file other than the one processed keeps its bytes. *)
Lemma normalize_file_preserves (p : path) (dry_run backup : bool) (ext : string)
    (s : fs) (q : path) (d : bytes) :
  s !! q = Some d ->
  is_Some (snd (Normalize.normalize_file p dry_run backup ext s) !! q)
  /\ (q <> p -> snd (Normalize.normalize_file p dry_run backup ext s) !! q = Some d).
Proof.
  intros Hq. rewrite normalize_file_run. break_goal; cbn [snd];
    repeat match goal with
    | H : bool_decide (is_Some (s !! ?bp)) = false |- _ =>
        apply bool_decide_eq_false_1 in H;
        assert (bp <> q) by (intros ->; apply H; eauto); clear H
    end;
    (split; [| intros Hne]);
    rewrite ?lookup_insert_ne by congruence; eauto;
    destruct (decide (p = q)) as [->|];
    rewrite ?lookup_insert_eq, ?lookup_insert_ne by congruence; eauto.
Qed.

Lemma fix_normalize_file_preserves (p : path) (apply backup : bool) (ext : string)
    (fix_utf8 : bool) (mapping : option dict) (flag : bool)
    (s : fs) (q : path) (d : bytes) :
  s !! q = Some d ->
  is_Some (snd (Fix.normalize_file p apply backup ext fix_utf8 mapping flag s) !! q)
  /\ (q <> p ->
      snd (Fix.normalize_file p apply backup ext fix_utf8 mapping flag s) !! q = Some d).
Proof.
  intros Hq. rewrite fix_normalize_file_run. break_goal; cbn [snd];
    repeat match goal with
    | H : bool_decide (is_Some (s !! ?bp)) = false |- _ =>
        apply bool_decide_eq_false_1 in H;
        assert (bp <> q) by (intros ->; apply H; eauto); clear H
    end;
    (split; [| intros Hne]);
    rewrite ?lookup_insert_ne by congruence; eauto;
    destruct (decide (p = q)) as [->|];
    rewrite ?lookup_insert_eq, ?lookup_insert_ne by congruence; eauto.
Qed.

Lemma normalize_process_store (a : Normalize.args) (p : path) (rest : list path) (s : fs) :
  snd (Normalize.process a (p :: rest) s)
  = if bool_decide (is_Some (s !! p))
    then snd (Normalize.process a rest
                (snd (Normalize.normalize_file p (Normalize.dry_run a)
                        (Normalize.backup a) (Normalize.backup_ext a) s)))
    else snd (Normalize.process a rest s).
Proof.
  cbn [Normalize.process]. unfold bind at 1. unfold exists_ at 1.
  destruct (bool_decide (is_Some (s !! p))); cbn [negb]; [| reflexivity].
  unfold bind, try_except, st_size, ret.
  destruct (Normalize.normalize_file _ _ _ _ s) as [[r|e] s1]; cbn [snd];
    destruct (Normalize.process a rest s1) as [[rows|e'] s2]; reflexivity.
Qed.

Lemma fix_process_store (a : Fix.args) (m : option dict * bool) (p : path)
    (rest : list path) (s : fs) :
  snd (Fix.process a m (p :: rest) s)
  = if bool_decide (is_Some (s !! p))
    then snd (Fix.process a m rest
                (snd (Fix.normalize_file p (Fix.apply a) (Fix.backup a)
                        (Fix.backup_ext a) (negb (Fix.no_fix_utf8 a)) (fst m) (snd m) s)))
    else snd (Fix.process a m rest s).
Proof.
  cbn [Fix.process]. unfold bind at 1. unfold exists_ at 1.
  destruct (bool_decide (is_Some (s !! p))); cbn [negb]; [| reflexivity].
  unfold bind, try_except, st_size, ret.
  destruct (Fix.normalize_file _ _ _ _ _ _ _ s) as [[[[[lbl act] before] after]|e] s1];
    cbn [snd]; destruct (Fix.process a m rest s1) as [[rows|e'] s2]; reflexivity.
Qed.

Lemma normalize_process_preserves (a : Normalize.args) (paths : list path)
    (s : fs) (q : path) (d : bytes) :
  s !! q = Some d ->
  is_Some (snd (Normalize.process a paths s) !! q)
  /\ (q ∉ paths -> snd (Normalize.process a paths s) !! q = Some d).
Proof.
  revert s d. induction paths as [|p rest IH]; intros s d Hq; [cbn; eauto |].
  rewrite normalize_process_store.
  destruct (bool_decide (is_Some (s !! p))).
  - destruct (normalize_file_preserves p (Normalize.dry_run a) (Normalize.backup a)
                (Normalize.backup_ext a) s q d Hq) as [[d1 Hd1] Hne].
    split; [exact (proj1 (IH _ d1 Hd1)) |].
    intros [Hqp Hqr]%not_elem_of_cons. exact (proj2 (IH _ d (Hne Hqp)) Hqr).
  - split; [exact (proj1 (IH _ d Hq)) |].
    intros [_ Hqr]%not_elem_of_cons. exact (proj2 (IH _ d Hq) Hqr).
Qed.

Lemma fix_process_preserves (a : Fix.args) (m : option dict * bool)
    (paths : list path) (s : fs) (q : path) (d : bytes) :
  s !! q = Some d ->
  is_Some (snd (Fix.process a m paths s) !! q)
  /\ (q ∉ paths -> snd (Fix.process a m paths s) !! q = Some d).
Proof.
  revert s d. induction paths as [|p rest IH]; intros s d Hq; [cbn; eauto |].
  rewrite fix_process_store.
  destruct (bool_decide (is_Some (s !! p))).
  - destruct (fix_normalize_file_preserves p (Fix.apply a) (Fix.backup a)
                (Fix.backup_ext a) (negb (Fix.no_fix_utf8 a)) (fst m) (snd m) s q d Hq)
      as [[d1 Hd1] Hne].
    split; [exact (proj1 (IH _ d1 Hd1)) |].
    intros [Hqp Hqr]%not_elem_of_cons. exact (proj2 (IH _ d (Hne Hqp)) Hqr).
  - split; [exact (proj1 (IH _ d Hq)) |].
    intros [_ Hqr]%not_elem_of_cons. exact (proj2 (IH _ d Hq) Hqr).
Qed.

Lemma normalize_main_store (a : Normalize.args) (paths : list path) (s : fs) :
  snd (Normalize.main a paths s) = snd (Normalize.process a paths s).
Proof.
  unfold Normalize.main. destruct paths as [|p rest]; [reflexivity |].
  unfold bind, ret. now destruct (Normalize.process a (p :: rest) s) as [[rows|e] s1].
Qed.

Lemma fix_main_store (a : Fix.args) (paths : list path) (s : fs) :
  snd (Fix.main a paths s) = snd (Fix.process a (Fix.build_mapping a) paths s).
Proof.
  unfold Fix.main. destruct paths as [|p rest]; [reflexivity |].
  unfold bind, ret.
  now destruct (Fix.process a (Fix.build_mapping a) (p :: rest) s) as [[rows|e] s1].
Qed.

(** Property X12. Whatever the flags, a run of the normalizer or of the
    mojibake fixer deletes nothing, and a file that exists and is not
    among the paths processed keeps its bytes: an existing file is never
    taken as a backup target. *)
Theorem drivers_touch_listed_files_only (paths : list path) (s : fs)
    (q : path) (d : bytes) :
  s !! q = Some d ->
  (forall a : Normalize.args,
      is_Some (snd (Normalize.main a paths s) !! q)
      /\ (q ∉ paths -> snd (Normalize.main a paths s) !! q = Some d))
  /\ (forall a : Fix.args,
      is_Some (snd (Fix.main a paths s) !! q)
      /\ (q ∉ paths -> snd (Fix.main a paths s) !! q = Some d)).
Proof.
  intros Hq. split; intros a.
  - rewrite normalize_main_store. now apply normalize_process_preserves.
  - rewrite fix_main_store. now apply fix_process_preserves.
Qed.

Lemma drivers_touch_listed_files_only_witness :
  let s : fs := {[ "m.bas"%string := [xef; xbb; xbf; x68]; "n.bas"%string := [xe9] ]} in
  snd (Normalize.main (Normalize.Args false true ".bak" false) ["m.bas"%string] s)
    !! "n.bas"%string = Some [xe9].
Proof.
  intros s.
  apply (proj1 (drivers_touch_listed_files_only ["m.bas"%string] s "n.bas"%string [xe9]
                  ltac:(vm_compute; reflexivity))).
  intros [=]%list_elem_of_singleton.
Defined.

(** Property X13. When either driver writes a file with backups enabled,
    the backup path did not exist before and afterwards holds the
    original bytes of the file. *)
Theorem backup_holds_original :
  (forall (p : path) (ext : string) (s s' : fs) lbl,
      Normalize.normalize_file p false true ext s = (Ok (lbl, a_write), s') ->
      exists backup_path,
        with_name_ext p ext = Ok backup_path
        /\ s !! backup_path = None
        /\ is_Some (s !! p)
        /\ s' !! backup_path = s !! p)
  /\ (forall (p : path) (ext : string) fix_utf8 mapping flag (s s' : fs)
        lbl before after,
      Fix.normalize_file p true true ext fix_utf8 mapping flag s
      = (Ok (lbl, a_write, before, after), s') ->
      exists backup_path,
        with_name_ext p ext = Ok backup_path
        /\ s !! backup_path = None
        /\ is_Some (s !! p)
        /\ s' !! backup_path = s !! p).
Proof.
  assert (Hnone : forall (s : fs) bp,
            bool_decide (is_Some (s !! bp)) = false -> s !! bp = None).
  { intros s bp H. apply bool_decide_eq_false_1 in H.
    destruct (s !! bp) eqn:E; [exfalso; apply H; eauto | reflexivity]. }
  split.
  - intros p ext s s' lbl H. rewrite normalize_file_run in H.
    destruct (s !! p) as [data|] eqn:Hp; [| discriminate H].
    break_hyp H. injection H as _ <-.
    eexists. split; [reflexivity |].
    match goal with Hb : bool_decide _ = false |- _ => apply Hnone in Hb; rename Hb into Hbp end.
    split; [exact Hbp |]. split; [eauto |].
    rewrite lookup_insert_ne by (intros ->; congruence). apply lookup_insert_eq.
  - intros p ext fx m fl s s' lbl before after H. rewrite fix_normalize_file_run in H.
    destruct (s !! p) as [data|] eqn:Hp; [| discriminate H].
    cbn [negb] in H. break_hyp H. injection H as _ _ _ <-.
    eexists. split; [reflexivity |].
    match goal with Hb : bool_decide (is_Some _) = false |- _ => apply Hnone in Hb; rename Hb into Hbp end.
    split; [exact Hbp |]. split; [eauto |].
    rewrite lookup_insert_ne by (intros ->; congruence). apply lookup_insert_eq.
Qed.

Lemma backup_holds_original_witness :
  let s : fs := {[ "m.bas"%string := [xef; xbb; xbf; x68] ]} in
  exists backup_path,
    with_name_ext "m.bas" ".bak" = Ok backup_path
    /\ s !! backup_path = None
    /\ is_Some (s !! "m.bas"%string)
    /\ ({[ "m.bas"%string := [x68]; "m.bas.bak"%string := [xef; xbb; xbf; x68] ]} : fs)
         !! backup_path = s !! "m.bas"%string.
Proof.
  intros s.
  apply (proj1 backup_holds_original "m.bas"%string ".bak"%string s _ utf8_bom).
  rewrite normalize_file_run. vm_compute. reflexivity.
Defined.

(** *** The batch never aborts *)






(** *** The checker *)




(** *** The mojibake fixer *)

Lemma transform_map_off (fix_utf8 : bool) (mapping : option dict) (flag : bool) (t : text) :
  flag && Fix.truthy mapping = false ->
  Fix.transform fix_utf8 mapping flag t
  = if fix_utf8 then fix_utf8_in_cp1252 t else (t, false).
Proof.
  intros Hoff. unfold Fix.transform. rewrite Hoff. destruct fix_utf8; [| reflexivity].
  now destruct (fix_utf8_in_cp1252 t) as [t' did].
Qed.

(** An unchanged flag means an unchanged text. *)
Lemma transform_unchanged (fix_utf8 : bool) (mapping : option dict) (flag : bool) (t : text) :
  snd (Fix.transform fix_utf8 mapping flag t) = false ->
  fst (Fix.transform fix_utf8 mapping flag t) = t.
Proof.
  unfold Fix.transform.
  assert (Hfix : forall t1 did,
            (if fix_utf8
             then let '(t', did_fix) := fix_utf8_in_cp1252 t in (t', false || did_fix)
             else (t, false)) = (t1, did) ->
            did = false -> t1 = t).
  { destruct fix_utf8; [| now intros t1 did [= <- _]].
    destruct (fix_utf8_in_cp1252_cases t) as [H | (r & H & _)]; rewrite H;
      cbn [orb]; intros t1 did [= <- <-]; [reflexivity | discriminate]. }
  destruct (if fix_utf8 then _ else _) as [t1 changed1] eqn:E.
  destruct (flag && Fix.truthy mapping).
  - destruct (bool_decide _) eqn:Hb; cbn [fst snd]; [discriminate |].
    intros Hc. exact (Hfix _ _ eq_refl Hc).
  - cbn [fst snd]. intros Hc. exact (Hfix _ _ eq_refl Hc).
Qed.

(** Splits the three parts of the statement below and closes those whose
    premise names another action. *)
Ltac score_cases :=
  split;
  [ let Ha := fresh "Ha" in intros Ha; try discriminate Ha
  | split;
    [ let Ha := fresh "Ha" in
      intros Ha; try (destruct Ha as [Ha|Ha]; discriminate Ha)
    | let Ha := fresh "Ha" in
      intros ? Ha; try (destruct Ha as [Ha|[Ha|Ha]]; discriminate Ha) ] ].

(** Property X16. What the two score columns of the mojibake fixer say:
    with [ok] the scores are equal and nothing is written; with [skip] and
    [decode-error] both are 0 and nothing is written; and when no
    substitution map is applied, [dry-run], [write] and [backup-exists]
    come with a score after that is strictly below the score before. *)
Theorem fix_outcome_scores (p : path) (apply backup : bool) (ext : string)
    (fix_utf8 : bool) (mapping : option dict) (flag : bool) (s s' : fs)
    (lbl : label) (act : action) (before after : nat) :
  Fix.normalize_file p apply backup ext fix_utf8 mapping flag s
  = (Ok (lbl, act, before, after), s') ->
  (act = a_ok -> after = before /\ s' = s)
  /\ (act = a_skip \/ act = a_decode_error ->
      before = 0%nat /\ after = 0%nat /\ s' = s)
  /\ (flag && Fix.truthy mapping = false ->
      act = a_dry_run \/ act = a_write \/ act = a_backup_exists ->
      (after < before)%nat).
Proof.
  intros H. rewrite fix_normalize_file_run in H.
  destruct (s !! p) as [data|]; [| discriminate H]. cbv zeta in H.
  destruct (bool_decide _).
  { injection H as <- <- <- <- <-. score_cases. repeat split; reflexivity. }
  destruct (decode_bytes data (classify data)) as [[t|]|e] eqn:Hd.
  - destruct (snd (Fix.transform fix_utf8 mapping flag t)) eqn:Hch; cbn [negb] in H.
    + assert (Hlt : flag && Fix.truthy mapping = false ->
                    (mojibake_score (fst (Fix.transform fix_utf8 mapping flag t))
                     < mojibake_score t)%nat).
      { intros Hoff. rewrite (transform_map_off _ _ _ _ Hoff) in Hch |- *.
        destruct fix_utf8; [| discriminate Hch].
        destruct (fix_utf8_in_cp1252_cases t) as [E | (r & E & Hr)];
          rewrite E in Hch |- *; [discriminate Hch | exact Hr]. }
      break_hyp H; injection H as <- <- <- <- <-; score_cases; now apply Hlt.
    + injection H as <- <- <- <- <-.
      rewrite (transform_unchanged _ _ _ _ Hch). score_cases. now split.
  - injection H as <- <- <- <- <-. score_cases. repeat split; reflexivity.
  - destruct e; try discriminate H.
    injection H as <- <- <- <- <-. score_cases. repeat split; reflexivity.
Qed.

Lemma fix_outcome_scores_witness :
  (0 < 1)%nat.
Proof.
  apply (fix_outcome_scores "m.bas"%string false false ".bak"%string true None false
           {[ "m.bas"%string := [x6d; xc3; x83; xc2; xa9] ]}
           {[ "m.bas"%string := [x6d; xc3; x83; xc2; xa9] ]}
           utf8 a_dry_run 1%nat 0%nat).
  - rewrite fix_normalize_file_run. vm_compute. reflexivity.
  - reflexivity.
  - now left.
Defined.

(** Property X17. With no substitution map applied, the mojibake fixer
    leaves every [ascii-only] file alone, under any flags: it reports
    [ok], both scores 0. *)
Theorem fix_leaves_ascii_alone (p : path) (apply backup : bool) (ext : string)
    (fix_utf8 : bool) (mapping : option dict) (flag : bool) (s : fs) (data : bytes) :
  s !! p = Some data ->
  classify data = ascii_only ->
  flag && Fix.truthy mapping = false ->
  Fix.normalize_file p apply backup ext fix_utf8 mapping flag s
  = (Ok (ascii_only, a_ok, 0%nat, 0%nat), s).
Proof.
  intros Hp Hl Hoff. rewrite fix_normalize_file_run, Hp. cbv zeta. rewrite Hl.
  rewrite bool_decide_eq_false_2 by (intros [?|?]; discriminate).
  apply classify_ascii_only_spec in Hl as [_ Hna].
  destruct (ascii_payload_decode _ Hna) as [_ Ha]. cbn [decode_bytes]. rewrite Ha.
  cbn [rmap rbind].
  assert (Hascii : Forall (fun c => c < 0x80) (map Byte.to_N data)).
  { clear -Hna. induction data as [|b r IH]; [constructor |].
    cbn [non_ascii existsb] in Hna. apply orb_false_iff in Hna as [Hb Hr].
    constructor; [now apply N.leb_gt | now apply IH]. }
  rewrite (transform_map_off _ _ _ _ Hoff).
  assert (Ht : (if fix_utf8 then fix_utf8_in_cp1252 (map Byte.to_N data)
                else (map Byte.to_N data, false)) = (map Byte.to_N data, false)).
  { destruct fix_utf8; [now apply ascii_text_fixed_point | reflexivity]. }
  rewrite Ht. cbn [fst snd negb].
  now rewrite (ascii_text_scores_zero _ Hascii).
Qed.

Lemma fix_leaves_ascii_alone_witness :
  let s : fs := {[ "m.bas"%string := [x68; x69; x0a] ]} in
  Fix.normalize_file "m.bas" true true ".bak" true None true s
  = (Ok (ascii_only, a_ok, 0%nat, 0%nat), s).
Proof.
  intros s.
  apply (fix_leaves_ascii_alone "m.bas"%string true true ".bak"%string true None true s
           [x68; x69; x0a]); vm_compute; reflexivity.
Defined.




(** ** Further properties of the repair and of the map *)

Lemma cp1252_encode_char_inv (c : char) (b : byte) :
  cp1252_encode_char c = Some b -> cp1252_decode_byte b = Some c.
Proof.
  unfold cp1252_encode_char.
  destruct ((c <? 0x80) || in_range 0xA0 0xFF c) eqn:Hr.
  - intros [= <-].
    assert (Hc : c < 256).
    { apply orb_true_iff in Hr as [Hr | Hr]; [apply N.ltb_lt in Hr; lia |].
      apply in_range_spec in Hr. lia. }
    rewrite <- (to_N_byte_of c Hc) in Hr |- * at 1.
    rewrite <- (to_N_byte_of c Hc) at 2.
    destruct (byte_of c); vm_compute in Hr |- *; congruence.
  - clear Hr. intros H. destruct c as [|p]; [discriminate H |].
    repeat first
      [ discriminate H
      | injection H as <-; vm_compute; reflexivity
      | destruct p as [p|p|]; cbn in H ].
Qed.

Lemma cp1252_encode_then_decode (t : text) (raw : bytes) :
  cp1252_encode t = Ok raw -> cp1252_decode raw = Ok t.
Proof.
  revert raw. induction t as [|c r IH]; cbn [cp1252_encode]; intros raw.
  - now intros [= <-].
  - destruct (cp1252_encode_char c) as [b|] eqn:Hc; [| discriminate].
    intros (raw' & Hraw' & ->)%rmap_Ok. cbn [cp1252_decode].
    rewrite (cp1252_encode_char_inv _ _ Hc), (IH _ Hraw'). reflexivity.
Qed.

(** Property X19. A whole-text repair loses nothing: whenever the round
    trip through CP1252 and UTF-8 succeeds and [fix_utf8_in_cp1252]
    reports a change, its result is the round-tripped text, and reading
    the UTF-8 bytes of that result as CP1252 gives the input text back. *)
Theorem whole_text_repair_is_invertible (t repaired r : text) :
  recode t = Ok repaired ->
  fix_utf8_in_cp1252 t = (r, true) ->
  r = repaired
  /\ exists raw, utf8_encode r = Ok raw /\ cp1252_decode raw = Ok t.
Proof.
  intros Hre Hfix. unfold fix_utf8_in_cp1252 in Hfix. rewrite Hre in Hfix.
  destruct (_ <? _)%nat; [| discriminate Hfix]. injection Hfix as <-.
  split; [reflexivity |].
  unfold recode in Hre. apply rbind_Ok in Hre as (raw & Henc & Hdec).
  exists raw. split; [now apply utf8_decode_then_encode | now apply cp1252_encode_then_decode].
Qed.

Lemma whole_text_repair_is_invertible_witness :
  [0x6D; 0xE9] = [0x6D; 0xE9]
  /\ exists raw, utf8_encode [0x6D; 0xE9] = Ok raw
                 /\ cp1252_decode raw = Ok [0x6D; 0xC3; 0xA9].
Proof.
  apply (whole_text_repair_is_invertible [0x6D; 0xC3; 0xA9] [0x6D; 0xE9] [0x6D; 0xE9]);
    vm_compute; reflexivity.
Defined.

(** *** The pass over the lines *)




(** *** Keys that cannot occur *)

Lemma replace_absent (t old new : text) (c : char) :
  c ∈ old -> c ∉ t -> replace t old new = t.
Proof.
  intros Hold Ht.
  assert (Hne : old <> []) by (intros ->; now apply elem_of_nil in Hold).
  unfold replace. destruct old as [|s old'] eqn:Eold; [contradiction |].
  rewrite <- Eold in *. clear Eold s old'.
  destruct (replace_scan_first old new t Hne) as [[_ H] | (pre & rest & -> & _ & _)];
    [exact H |].
  exfalso. apply Ht. rewrite !elem_of_app. right; now left.
Qed.

Lemma apply_map_absent (t : text) (m : dict) :
  Forall (fun kv => exists c, c ∈ fst kv /\ c ∉ t) m -> apply_map t m = t.
Proof.
  induction 1 as [|[k v] m (c & Hk & Ht) _ IH]; [reflexivity |].
  change (apply_map t ((k, v) :: m)) with (apply_map (replace t k v) m).
  cbn [fst] in Hk. now rewrite (replace_absent t k v c Hk Ht).
Qed.

(** Property X21. A substitution map each of whose keys holds a
    character that is absent from the text leaves the text as it is. *)
Theorem apply_map_without_occurrence (t : text) (m : dict) :
  Forall (fun kv => exists c, c ∈ fst kv /\ c ∉ t) m -> apply_map t m = t.
Proof. apply apply_map_absent. Qed.

(** Non-membership in an explicit list. *)
Ltac concrete_not_in :=
  let H := fresh "H" in
  intros H;
  repeat (apply elem_of_cons in H as [H|H]; [discriminate H |]);
  now apply elem_of_nil in H.

Lemma apply_map_without_occurrence_witness :
  apply_map [0x61; 0x62] [([0x62; 0x63], [0x64]); ([0x65], [])] = [0x61; 0x62].
Proof.
  apply (apply_map_without_occurrence [0x61; 0x62] [([0x62; 0x63], [0x64]); ([0x65], [])]).
  repeat constructor; cbn [fst].
  - exists 0x63. split; [set_solver |].
    concrete_not_in.
  - exists 0x65. split; [set_solver |].
    concrete_not_in.
Defined.

Lemma spanish_keys_hold_replacement_char :
  Forall (fun kv : text * text => 0xFFFD ∈ fst kv) SPANISH_DEFAULTS.
Proof.
  apply Forall_forall. intros kv Hin.
  assert (H : forallb (fun kv : text * text => bool_decide (0xFFFD ∈ fst kv))
                SPANISH_DEFAULTS = true) by (vm_compute; reflexivity).
  rewrite forallb_forall in H. apply list_elem_of_In in Hin.
  exact (bool_decide_eq_true_1 _ (H kv Hin)).
Qed.

(** Property X22. With [--spanish-defaults] and no [--map], the map
    [main] hands over is the built-in table, and applying it leaves every
    text without the replacement character U+FFFD as it is. *)
Theorem spanish_defaults_need_replacement_char (a : Fix.args) (t : text) :
  Fix.spanish_defaults a = true ->
  Fix.map_file a = None ->
  0xFFFD ∉ t ->
  Fix.build_mapping a = (Some SPANISH_DEFAULTS, true)
  /\ apply_map t SPANISH_DEFAULTS = t.
Proof.
  intros Hsd Hmap Ht. split.
  - unfold Fix.build_mapping. rewrite Hsd, Hmap, dict_update_defaults.
    now destruct (Fix.fix_map a).
  - apply apply_map_absent.
    eapply Forall_impl; [apply spanish_keys_hold_replacement_char |].
    intros kv Hkv. cbn beta in Hkv. eauto.
Qed.

Lemma spanish_defaults_need_replacement_char_witness :
  Fix.build_mapping (Fix.Args false false ".bak" false None false true false)
  = (Some SPANISH_DEFAULTS, true)
  /\ apply_map [0x61; 0xF1; 0x6F] SPANISH_DEFAULTS = [0x61; 0xF1; 0x6F].
Proof.
  apply (spanish_defaults_need_replacement_char
           (Fix.Args false false ".bak" false None false true false) [0x61; 0xF1; 0x6F]);
    [reflexivity | reflexivity |].
  concrete_not_in.
Defined.

(** *** Keys of an updated dictionary *)

Lemma dict_set_key_list (k v : text) (d : dict) :
  map fst (dict_set k v d)
  = if bool_decide (k ∈ map fst d) then map fst d else map fst d ++ [k].
Proof.
  induction d as [|[k' v'] r IH]; cbn [dict_set map fst].
  - rewrite bool_decide_eq_false_2 by apply not_elem_of_nil. reflexivity.
  - destruct (bool_decide (k' = k)) eqn:E.
    + apply bool_decide_eq_true_1 in E as ->.
      rewrite bool_decide_eq_true_2 by (now left). reflexivity.
    + apply bool_decide_eq_false_1 in E. cbn [map fst]. rewrite IH.
      destruct (bool_decide (k ∈ map fst r)) eqn:Er.
      * apply bool_decide_eq_true_1 in Er.
        rewrite bool_decide_eq_true_2 by (now right). reflexivity.
      * apply bool_decide_eq_false_1 in Er.
        rewrite bool_decide_eq_false_2; [reflexivity |].
        intros [?|?]%elem_of_cons; congruence.
Qed.

(** Property X23. [dict.update] keeps the keys pairwise distinct and adds
    exactly the keys of the other dictionary: a key is in the result
    exactly when it is in one of the two. *)
Theorem dict_update_key_set (d other : dict) :
  NoDup (map fst d) ->
  NoDup (map fst (dict_update d other))
  /\ forall k, k ∈ map fst (dict_update d other) <-> k ∈ map fst d \/ k ∈ map fst other.
Proof.
  revert d. induction other as [|[k1 v1] o IH]; intros d Hnd.
  - split; [exact Hnd |]. intros k. cbn. rewrite elem_of_nil. tauto.
  - rewrite dict_update_cons.
    assert (Hnd1 : NoDup (map fst (dict_set k1 v1 d))).
    { rewrite dict_set_key_list. destruct (bool_decide (k1 ∈ map fst d)) eqn:E; [exact Hnd |].
      apply bool_decide_eq_false_1 in E. apply NoDup_app. split; [exact Hnd |].
      split; [| apply NoDup_singleton].
      intros x Hx [=]%list_elem_of_singleton. congruence. }
    destruct (IH _ Hnd1) as [Hnd' Hkeys]. split; [exact Hnd' |].
    intros k. rewrite Hkeys, dict_set_key_list. cbn [map fst].
    rewrite elem_of_cons.
    destruct (bool_decide (k1 ∈ map fst d)) eqn:E.
    + apply bool_decide_eq_true_1 in E. split; [tauto |].
      intros [? | [-> | ?]]; tauto.
    + rewrite elem_of_app, list_elem_of_singleton. tauto.
Qed.

Lemma dict_update_key_set_witness :
  NoDup (map fst (dict_update SPANISH_DEFAULTS [([0x61], [0x62])])).
Proof.
  apply (dict_update_key_set SPANISH_DEFAULTS [([0x61], [0x62])]).
  apply (bool_decide_eq_true_1 (NoDup (map fst SPANISH_DEFAULTS))).
  vm_compute. reflexivity.
Defined.
